(** * Window objects of the Wayland backend

    A shallow embedding of [libqtile/backend/wayland/window.py]: the
    [Window] and [Static] classes, their floating state machine, the
    placement routine, the stacking lists they share through [Core], and
    the creation of [XdgPopupWindow] objects.

    Python objects live in a store indexed by window id; a method is a
    computation over the [Core] that may raise, and that records the calls
    it makes into collaborators (surface, output, group, hook bus) in an
    effect trace. *)

From Stdlib Require Import ZArith List Bool String Lia QArith Qround Qabs Lqa.
From Stdlib Require PrimFloat FloatOps SpecFloat.
Import ListNotations.
Close Scope Q_scope.
Open Scope Z_scope.

(** ** Data *)

(** Window ids ([Window.wid]); two window objects are the same object exactly
    when their ids agree. *)
Definition wid := nat.

(** Modelled from the spec: [FloatStates] is declared in
    [libqtile/backend/base.py]; the five states the window state machine
    uses are the ones the spec lists. *)
Inductive FloatStates :=
  NOT_FLOATING | FLOATING | FULLSCREEN | MAXIMIZED | MINIMIZED.

Definition FloatStates_eqb (a b : FloatStates) : bool :=
  match a, b with
  | NOT_FLOATING, NOT_FLOATING | FLOATING, FLOATING | FULLSCREEN, FULLSCREEN
  | MAXIMIZED, MAXIMIZED | MINIMIZED, MINIMIZED => true
  | _, _ => false
  end.

(** The four layers of the layer shell, indices of [Output.layers]. *)
Inductive Layer := BACKGROUND | BOTTOM | TOP | OVERLAY.

Definition Layer_eqb (a b : Layer) : bool :=
  match a, b with
  | BACKGROUND, BACKGROUND | BOTTOM, BOTTOM | TOP, TOP | OVERLAY, OVERLAY => true
  | _, _ => false
  end.

(** The Python exceptions the modelled code can raise. *)
Inductive Exn :=
  AttributeError | ValueError | IndexError | TypeError | OverflowError.

(** A border colour, the RGBA array [_rgb] builds; [_rgb] only caches, so it
    is the identity on the value. *)
Definition Color := (Z * Z * Z * Z)%type.
Definition _rgb (color : Color) : Color := color.

(** [wlroots.wlr_types.Box]; its four fields are C [int]s. *)
Record Box := { box_x : Z; box_y : Z; box_width : Z; box_height : Z }.

(** The part of [libqtile.config.Screen] the window code reads. *)
Record Screen := {
  index : Z;
  screen_x : Z; screen_y : Z; screen_width : Z; screen_height : Z;
  dx : Z; dy : Z; dwidth : Z; dheight : Z;
  screen_group : string
}.

(** The part of a group (workspace) the window code reads. *)
Record Group := { group_name : string; screen : option Screen }.

(** An [Output] as far as windows and popups are concerned: its name and
    [get_geometry()]. *)
Record Output := { output_name : nat; geometry : Box }.

(** [XdgPopup]: [xdg_popup.base.get_geometry()]. *)
Record XdgPopup := { base_geometry : Box }.

#[local] Set Warnings "-register-all".

(** [XdgPopupWindow]: the parent is a window or another popup. *)
Inductive XdgPopupWindow :=
  PopupObject (parent : wid + XdgPopupWindow) (xdg_popup : XdgPopup)
              (output : Output) (output_box : Box)
              (popups : list XdgPopupWindow).

Definition popup_output (p : XdgPopupWindow) : Output :=
  match p with PopupObject _ _ o _ _ => o end.
Definition popup_output_box (p : XdgPopupWindow) : Box :=
  match p with PopupObject _ _ _ b _ => b end.
Definition popup_parent (p : XdgPopupWindow) : wid + XdgPopupWindow :=
  match p with PopupObject q _ _ _ _ => q end.
Definition popup_popups (p : XdgPopupWindow) : list XdgPopupWindow :=
  match p with PopupObject _ _ _ _ l => l end.

(** The class of a window object: [Internal] adds nothing to [Window]. *)
Inductive WinClass := ClassWindow | ClassStatic.

(** The attributes of a [Window] or [Static] object.  [width] and [height]
    are the properties reading [surface.surface.current]; [output] and
    [layer] ([surface.client_pending.layer]) are read for layer surfaces
    only. *)
Module Win.
Record t := mk {
  class : WinClass;
  _group : option Group;
  _mapped : bool;
  x : Z;
  y : Z;
  width : Z;
  height : Z;
  borderwidth : Z;
  bordercolor : Color;
  _float_state : FloatStates;
  float_x : Z;
  float_y : Z;
  float_width : Z;
  float_height : Z;
  popups : list XdgPopupWindow;
  is_layer : bool;
  output : nat;
  layer : Layer
}.

Definition set_group v w :=
  mk (class w) v (_mapped w) (x w) (y w) (width w) (height w)
     (borderwidth w) (bordercolor w) (_float_state w) (float_x w)
     (float_y w) (float_width w) (float_height w) (popups w) (is_layer w)
     (output w) (layer w).
Definition set_mapped v w :=
  mk (class w) (_group w) v (x w) (y w) (width w) (height w)
     (borderwidth w) (bordercolor w) (_float_state w) (float_x w)
     (float_y w) (float_width w) (float_height w) (popups w) (is_layer w)
     (output w) (layer w).
Definition set_x v w :=
  mk (class w) (_group w) (_mapped w) v (y w) (width w) (height w)
     (borderwidth w) (bordercolor w) (_float_state w) (float_x w)
     (float_y w) (float_width w) (float_height w) (popups w) (is_layer w)
     (output w) (layer w).
Definition set_y v w :=
  mk (class w) (_group w) (_mapped w) (x w) v (width w) (height w)
     (borderwidth w) (bordercolor w) (_float_state w) (float_x w)
     (float_y w) (float_width w) (float_height w) (popups w) (is_layer w)
     (output w) (layer w).
Definition set_current_size vw vh w :=
  mk (class w) (_group w) (_mapped w) (x w) (y w) vw vh
     (borderwidth w) (bordercolor w) (_float_state w) (float_x w)
     (float_y w) (float_width w) (float_height w) (popups w) (is_layer w)
     (output w) (layer w).
Definition set_borderwidth v w :=
  mk (class w) (_group w) (_mapped w) (x w) (y w) (width w) (height w)
     v (bordercolor w) (_float_state w) (float_x w)
     (float_y w) (float_width w) (float_height w) (popups w) (is_layer w)
     (output w) (layer w).
Definition set_bordercolor v w :=
  mk (class w) (_group w) (_mapped w) (x w) (y w) (width w) (height w)
     (borderwidth w) v (_float_state w) (float_x w)
     (float_y w) (float_width w) (float_height w) (popups w) (is_layer w)
     (output w) (layer w).
Definition set_float_state v w :=
  mk (class w) (_group w) (_mapped w) (x w) (y w) (width w) (height w)
     (borderwidth w) (bordercolor w) v (float_x w)
     (float_y w) (float_width w) (float_height w) (popups w) (is_layer w)
     (output w) (layer w).
Definition set_float_width v w :=
  mk (class w) (_group w) (_mapped w) (x w) (y w) (width w) (height w)
     (borderwidth w) (bordercolor w) (_float_state w) (float_x w)
     (float_y w) v (float_height w) (popups w) (is_layer w)
     (output w) (layer w).
Definition set_float_height v w :=
  mk (class w) (_group w) (_mapped w) (x w) (y w) (width w) (height w)
     (borderwidth w) (bordercolor w) (_float_state w) (float_x w)
     (float_y w) (float_width w) v (popups w) (is_layer w)
     (output w) (layer w).
Definition set_popups v w :=
  mk (class w) (_group w) (_mapped w) (x w) (y w) (width w) (height w)
     (borderwidth w) (bordercolor w) (_float_state w) (float_x w)
     (float_y w) (float_width w) (float_height w) v (is_layer w)
     (output w) (layer w).

(** [Window.__init__]: a new, unmapped, tiled window without a group, at
    the origin, whose float memory is taken from the surface's size. *)
Definition init (surface_width surface_height : Z) : t :=
  mk ClassWindow None false 0 0 surface_width surface_height
     0 (_rgb (0, 0, 0, 1)) NOT_FLOATING 0 0 surface_width surface_height
     [] false O BACKGROUND.
End Win.

(** The seat: [seat.destroyed] and the window whose surface is
    [seat.keyboard_state.focused_surface]. *)
Record Seat := { destroyed : bool; focused_surface : option wid }.

(** A C [double], which is also a Python [float]. *)
Definition double := PrimFloat.float.

(** [core.output_layout]: the two queries popups make, both on layout
    coordinates, which are doubles. *)
Record OutputLayout := {
  closest_point : double -> double -> double * double;
  output_at : double -> double -> option Output
}.

(** The compositor state the window objects share. *)
Record Core := {
  windows : wid -> Win.t;
  mapped_windows : list wid;
  layers : nat -> Layer -> list wid;
  outputs : list Output;
  seat : Seat;
  output_layout : OutputLayout;
  find_closest_screen : Z -> Z -> option Screen;
  auto_fullscreen : bool
}.

Definition with_windows v c :=
  Build_Core v (mapped_windows c) (layers c) (outputs c) (seat c)
             (output_layout c) (find_closest_screen c) (auto_fullscreen c).
Definition with_mapped_windows v c :=
  Build_Core (windows c) v (layers c) (outputs c) (seat c)
             (output_layout c) (find_closest_screen c) (auto_fullscreen c).
Definition with_layers v c :=
  Build_Core (windows c) (mapped_windows c) v (outputs c) (seat c)
             (output_layout c) (find_closest_screen c) (auto_fullscreen c).
Definition with_seat v c :=
  Build_Core (windows c) (mapped_windows c) (layers c) (outputs c) v
             (output_layout c) (find_closest_screen c) (auto_fullscreen c).

(** Store update at one window id. *)
Definition upd (ws : wid -> Win.t) (w : wid) (v : Win.t) : wid -> Win.t :=
  fun w' => if Nat.eqb w' w then v else ws w'.

(** Calls into collaborators, in the order they are made. *)
Inductive Effect :=
| set_size (w : wid) (width height : Z)
| configure (w : wid) (width height : Z)
| damage_add_whole (o : nat)
| focus_window (w : wid)
| keyboard_clear_focus
| organise_layers (o : nat)
| mark_floating (g : string) (w : wid) (floating : bool)
| hook_fire (name : string)
| group_remove (g : string) (w : wid)
| group_add (g : string) (w : wid)
| focus_screen (idx : Z)
| unconstrain_from_box (b : Box).

(** ** Computations *)

Inductive Result (A : Type) := Ok (a : A) | Raise (e : Exn).
Arguments Ok {A} a.
Arguments Raise {A} e.

Record Outcome (A : Type) := mkOutcome {
  final : Core;
  trace : list Effect;
  result : Result A
}.
Arguments mkOutcome {A}.
Arguments final {A}.
Arguments trace {A}.
Arguments result {A}.

(** A method: from the state before to the state after, the calls made, and
    a value or the exception that ended it.  Mutations made before a raise
    stay. *)
Definition M (A : Type) := Core -> Outcome A.

Definition ret {A} (a : A) : M A := fun c => mkOutcome c [] (Ok a).

Definition bind {A B} (m : M A) (f : A -> M B) : M B := fun c =>
  let o := m c in
  match result o with
  | Ok a =>
      let o' := f a (final o) in
      mkOutcome (final o') (trace o ++ trace o') (result o')
  | Raise e => mkOutcome (final o) (trace o) (Raise e)
  end.

Definition raise {A} (e : Exn) : M A := fun c => mkOutcome c [] (Raise e).
Definition emit (e : Effect) : M unit := fun c => mkOutcome c [e] (Ok tt).
Definition gets {A} (f : Core -> A) : M A := fun c => mkOutcome c [] (Ok (f c)).
Definition modify (f : Core -> Core) : M unit :=
  fun c => mkOutcome (f c) [] (Ok tt).

Notation "x <- m ;; k" := (bind m (fun x => k))
  (at level 61, m at next level, right associativity).
Notation "m ;; k" := (bind m (fun _ => k))
  (at level 61, right associativity).

(** [self]: the attributes of the object. *)
Definition self_ (self : wid) : M Win.t := gets (fun c => windows c self).

(** [self.attr = v]. *)
Definition setattr (self : wid) (f : Win.t -> Win.t) : M unit :=
  modify (fun c => with_windows (upd (windows c) self (f (windows c self))) c).

(** A method with no return value that ran to its end. *)
Definition returned {A} (o : Outcome A) : bool :=
  match result o with Ok _ => true | Raise _ => false end.

(** ** Python lists of window objects *)

(** [w in lst]. *)
Definition py_in (w : wid) (lst : list wid) : bool := existsb (Nat.eqb w) lst.

(** [lst.remove(w)]: drops the first occurrence; [None] is the [ValueError]
    of an absent element. *)
Fixpoint py_remove (w : wid) (lst : list wid) : option (list wid) :=
  match lst with
  | [] => None
  | h :: t =>
      if Nat.eqb h w then Some t
      else match py_remove w t with
           | Some t' => Some (h :: t')
           | None => None
           end
  end.

(** The list a window is tracked in: [core.mapped_windows], or
    [output.layers[layer]] for a layer surface. *)
Inductive Tracker := CoreMapped | OutputLayer (o : nat) (l : Layer).

Definition tracker_get (t : Tracker) (c : Core) : list wid :=
  match t with
  | CoreMapped => mapped_windows c
  | OutputLayer o l => layers c o l
  end.

Definition tracker_set (t : Tracker) (v : list wid) (c : Core) : Core :=
  match t with
  | CoreMapped => with_mapped_windows v c
  | OutputLayer o l =>
      with_layers
        (fun o' l' =>
           if Nat.eqb o' o && Layer_eqb l' l then v else layers c o' l') c
  end.

(** [tracker.append(self)]. *)
Definition list_append (t : Tracker) (self : wid) : M unit :=
  modify (fun c => tracker_set t (tracker_get t c ++ [self]) c).

(** [tracker.remove(self)]. *)
Definition list_remove (t : Tracker) (self : wid) : M unit :=
  lst <- gets (tracker_get t) ;;
  match py_remove self lst with
  | Some lst' => modify (tracker_set t lst')
  | None => raise ValueError
  end.

(** ** Damage and borders *)

(** Modelled from the spec: [Output.contains] is defined in [output.py];
    damage goes to every output whose bounds intersect the window's current
    rectangle. *)
Definition contains (o : Output) (win : Win.t) : bool :=
  let g := geometry o in
  (Win.x win <? box_x g + box_width g) && (box_x g <? Win.x win + Win.width win)
  && (Win.y win <? box_y g + box_height g)
  && (box_y g <? Win.y win + Win.height win).

(** [Window.damage]. *)
Definition Window_damage (self : wid) : M unit := fun c =>
  mkOutcome c
    (map (fun o => damage_add_whole (output_name o))
         (filter (fun o => contains o (windows c self)) (outputs c)))
    (Ok tt).

(** [Static.damage]. *)
Definition Static_damage (self : wid) : M unit :=
  win <- self_ self ;;
  if Win.is_layer win then emit (damage_add_whole (Win.output win))
  else Window_damage self.

Definition damage (self : wid) : M unit :=
  win <- self_ self ;;
  match Win.class win with
  | ClassWindow => Window_damage self
  | ClassStatic => Static_damage self
  end.

(** [Window.paint_borders]: a falsy colour ([None]) keeps the old one. *)
Definition paint_borders (self : wid) (color : option Color) (width : Z)
  : M unit :=
  match color with
  | Some col => setattr self (Win.set_bordercolor (_rgb col))
  | None => ret tt
  end ;;
  setattr self (Win.set_borderwidth width).

(** ** The mapped flag and the stacking lists *)

(** [Window.mapped] setter. *)
Definition Window_mapped_set (self : wid) (mapped : bool) : M unit :=
  setattr self (Win.set_mapped mapped) ;;
  lst <- gets mapped_windows ;;
  if mapped then
    if negb (py_in self lst) then list_append CoreMapped self else ret tt
  else
    if py_in self lst then list_remove CoreMapped self else ret tt.

(** [Static.mapped] setter. *)
Definition Static_mapped_set (self : wid) (mapped : bool) : M unit :=
  setattr self (Win.set_mapped mapped) ;;
  win <- self_ self ;;
  let tracker :=
    if Win.is_layer win then OutputLayer (Win.output win) (Win.layer win)
    else CoreMapped in
  lst <- gets (tracker_get tracker) ;;
  (if mapped then
     if negb (py_in self lst) then list_append tracker self else ret tt
   else
     if py_in self lst then list_remove tracker self else ret tt) ;;
  if Win.is_layer win then emit (organise_layers (Win.output win)) else ret tt.

(** [self.mapped = mapped], by the class of the object. *)
Definition mapped_set (self : wid) (mapped : bool) : M unit :=
  win <- self_ self ;;
  match Win.class win with
  | ClassWindow => Window_mapped_set self mapped
  | ClassStatic => Static_mapped_set self mapped
  end.

(** [seat.keyboard_clear_focus()]. *)
Definition seat_keyboard_clear_focus : M unit :=
  modify (fun c => with_seat (Build_Seat (destroyed (seat c)) None) c) ;;
  emit keyboard_clear_focus.

(** [self.surface.surface == seat.keyboard_state.focused_surface]. *)
Definition is_focused (self : wid) (s : Seat) : bool :=
  match focused_surface s with
  | Some w => Nat.eqb w self
  | None => false
  end.

(** [Window._on_map]. *)
Definition Window__on_map (self : wid) : M unit :=
  mapped_set self true ;;
  emit (focus_window self).

(** [Window._on_unmap]. *)
Definition Window__on_unmap (self : wid) : M unit :=
  mapped_set self false ;;
  damage self ;;
  s <- gets seat ;;
  if negb (destroyed s) then
    if is_focused self s then seat_keyboard_clear_focus else ret tt
  else ret tt.

(** [Static._on_map]. *)
Definition Static__on_map (self : wid) : M unit :=
  mapped_set self true ;;
  damage self ;;
  win <- self_ self ;;
  if Win.is_layer win then emit (organise_layers (Win.output win)) else ret tt.

(** [Static._on_unmap]. *)
Definition Static__on_unmap (self : wid) : M unit :=
  mapped_set self false ;;
  s <- gets seat ;;
  (if is_focused self s then seat_keyboard_clear_focus else ret tt) ;;
  win <- self_ self ;;
  (if Win.is_layer win then emit (organise_layers (Win.output win))
   else ret tt) ;;
  damage self.

(** The listener of [surface.map_event]. *)
Definition _on_map (self : wid) : M unit :=
  win <- self_ self ;;
  match Win.class win with
  | ClassWindow => Window__on_map self
  | ClassStatic => Static__on_map self
  end.

(** The listener of [surface.unmap_event]. *)
Definition _on_unmap (self : wid) : M unit :=
  win <- self_ self ;;
  match Win.class win with
  | ClassWindow => Window__on_unmap self
  | ClassStatic => Static__on_unmap self
  end.

(** [Window.hide]: emitting the signal runs the window's own listener. *)
Definition hide (self : wid) : M unit :=
  win <- self_ self ;;
  if Win._mapped win then _on_unmap self else ret tt.

(** [Window.unhide]. *)
Definition unhide (self : wid) : M unit :=
  win <- self_ self ;;
  if negb (Win._mapped win) then _on_map self else ret tt.

(** [Window.cmd_bring_to_front]. *)
Definition cmd_bring_to_front (self : wid) : M unit :=
  win <- self_ self ;;
  if Win._mapped win then
    list_remove CoreMapped self ;; list_append CoreMapped self
  else ret tt.

(** ** Placement *)

(** The [margin] argument of [place]: an [int], or a list indexed
    [top, right, bottom, left]. *)
Inductive Margin := margin_int (m : Z) | margin_list (l : list Z).

(** [margin[i]]; a list that is too short raises. *)
Definition subscript (l : list Z) (i : nat) : M Z :=
  match nth_error l i with
  | Some v => ret v
  | None => raise IndexError
  end.

(** [Window.place]. *)
Definition Window_place (self : wid) (x y width height borderwidth : Z)
    (bordercolor : option Color) (above : bool) (margin : option Margin)
    (respect_hints : bool) : M unit :=
  rect <- match margin with
          | Some m =>
              let margin :=
                match m with
                | margin_int i => [i; i; i; i]
                | margin_list l => l
                end in
              left <- subscript margin 3 ;;
              top <- subscript margin 0 ;;
              right <- subscript margin 1 ;;
              bottom <- subscript margin 2 ;;
              ret (x + left, y + top,
                   width - (right + left), height - (top + bottom))
          | None => ret (x, y, width, height)
          end ;;
  let '(x, y, width, height) := rect in
  setattr self (Win.set_x x) ;;
  setattr self (Win.set_y y) ;;
  emit (set_size self width height) ;;
  paint_borders self bordercolor borderwidth ;;
  (if above then
     list_remove CoreMapped self ;; list_append CoreMapped self
   else ret tt) ;;
  damage self.

(** [Static.place]: no margin, no restacking. *)
Definition Static_place (self : wid) (x y width height borderwidth : Z)
    (bordercolor : option Color) (above : bool) (margin : option Margin)
    (respect_hints : bool) : M unit :=
  setattr self (Win.set_x x) ;;
  setattr self (Win.set_y y) ;;
  win <- self_ self ;;
  (if Win.is_layer win then emit (configure self width height)
   else emit (set_size self width height) ;;
        paint_borders self bordercolor borderwidth) ;;
  damage self.

Definition place (self : wid) (x y width height borderwidth : Z)
    (bordercolor : option Color) (above : bool) (margin : option Margin)
    (respect_hints : bool) : M unit :=
  win <- self_ self ;;
  match Win.class win with
  | ClassWindow =>
      Window_place self x y width height borderwidth bordercolor above margin
                   respect_hints
  | ClassStatic =>
      Static_place self x y width height borderwidth bordercolor above margin
                   respect_hints
  end.

(** ** The floating state machine *)

(** [Window._reconfigure_floating].  The callers in the file pass [None]
    coordinates only together with [MINIMIZED]; [int(None)] in [place] is a
    [TypeError]. *)
Definition _reconfigure_floating (self : wid) (x y w h : option Z)
    (new_float_state : FloatStates) : M unit :=
  (if FloatStates_eqb new_float_state MINIMIZED then hide self
   else
     win <- self_ self ;;
     match x, y, w, h with
     | Some x, Some y, Some w, Some h =>
         place self x y w h (Win.borderwidth win) (Some (Win.bordercolor win))
               true None true
     | _, _, _, _ => raise TypeError
     end) ;;
  win <- self_ self ;;
  if negb (FloatStates_eqb (Win._float_state win) new_float_state) then
    setattr self (Win.set_float_state new_float_state) ;;
    match Win._group win with
    | Some g => emit (mark_floating (group_name g) self true)
    | None => ret tt
    end ;;
    emit (hook_fire "float_change")
  else ret tt.

(** [Window._enablefloating]. *)
Definition _enablefloating (self : wid) (x y w h : option Z)
    (new_float_state : FloatStates) : M unit :=
  _reconfigure_floating self x y w h new_float_state.

(** [Window.floating] getter. *)
Definition floating (win : Win.t) : bool :=
  negb (FloatStates_eqb (Win._float_state win) NOT_FLOATING).

(** [Window.floating] setter. *)
Definition floating_set (self : wid) (do_float : bool) : M unit :=
  win <- self_ self ;;
  if do_float && FloatStates_eqb (Win._float_state win) NOT_FLOATING then
    match Win._group win with
    | Some g =>
        match screen g with
        | Some screen =>
            _enablefloating self
              (Some (screen_x screen + Win.float_x win))
              (Some (screen_y screen + Win.float_y win))
              (Some (Win.float_width win))
              (Some (Win.float_height win))
              FLOATING
        | None => setattr self (Win.set_float_state FLOATING)
        end
    | None => setattr self (Win.set_float_state FLOATING)
    end
  else if negb do_float
          && negb (FloatStates_eqb (Win._float_state win) NOT_FLOATING) then
    (if FloatStates_eqb (Win._float_state win) FLOATING then
       setattr self (Win.set_float_width (Win.width win)) ;;
       setattr self (Win.set_float_height (Win.height win))
     else ret tt) ;;
    setattr self (Win.set_float_state NOT_FLOATING) ;;
    match Win._group win with
    | Some g => emit (mark_floating (group_name g) self false)
    | None => raise AttributeError
    end ;;
    emit (hook_fire "float_change")
  else ret tt.

(** [self.group.screen or self.qtile.find_closest_screen(self.x, self.y)]
    followed by the first attribute read of the result. *)
Definition pick_screen (self : wid) : M Screen :=
  win <- self_ self ;;
  match Win._group win with
  | None => raise AttributeError
  | Some g =>
      match screen g with
      | Some sc => ret sc
      | None =>
          found <- gets (fun c => find_closest_screen c (Win.x win) (Win.y win)) ;;
          match found with
          | Some sc => ret sc
          | None => raise AttributeError
          end
      end
  end.

(** [Window.fullscreen] setter. *)
Definition fullscreen_set (self : wid) (do_full : bool) : M unit :=
  if do_full then
    screen <- pick_screen self ;;
    _enablefloating self (Some (screen_x screen)) (Some (screen_y screen))
                    (Some (screen_width screen)) (Some (screen_height screen))
                    FULLSCREEN
  else
    win <- self_ self ;;
    if FloatStates_eqb (Win._float_state win) FULLSCREEN then
      floating_set self false
    else ret tt.

(** [Window.maximized] setter. *)
Definition maximized_set (self : wid) (do_maximize : bool) : M unit :=
  if do_maximize then
    screen <- pick_screen self ;;
    _enablefloating self (Some (dx screen)) (Some (dy screen))
                    (Some (dwidth screen)) (Some (dheight screen))
                    MAXIMIZED
  else
    win <- self_ self ;;
    if FloatStates_eqb (Win._float_state win) MAXIMIZED then
      floating_set self false
    else ret tt.

(** [Window.minimized] setter. *)
Definition minimized_set (self : wid) (do_minimize : bool) : M unit :=
  win <- self_ self ;;
  if do_minimize then
    if negb (FloatStates_eqb (Win._float_state win) MINIMIZED) then
      _enablefloating self None None None None MINIMIZED
    else ret tt
  else
    if FloatStates_eqb (Win._float_state win) MINIMIZED then
      floating_set self false
    else ret tt.

(** [Window._on_request_fullscreen]. *)
Definition _on_request_fullscreen (self : wid) (event_fullscreen : bool)
  : M unit :=
  auto <- gets auto_fullscreen ;;
  if auto then fullscreen_set self event_fullscreen else ret tt.

(** [screen != self.group.screen]: screens are compared as objects, that
    is by their index. *)
Definition screen_differs (sc : Screen) (other : option Screen) : bool :=
  match other with
  | Some sc' => negb (index sc =? index sc')
  | None => true
  end.

(** Modelled from the spec: [_Group.remove] and [_Group.add] are defined in
    [group.py]; the forced transfer moves the window to the workspace of
    the screen ([win.group] becomes [screen.group]). *)
Definition group_transfer (self : wid) (g : Group) (sc : Screen) : M unit :=
  emit (group_remove (group_name g) self) ;;
  setattr self (Win.set_group None) ;;
  emit (group_add (screen_group sc) self) ;;
  setattr self (Win.set_group (Some (Build_Group (screen_group sc) (Some sc)))).

(** [Window._tweak_float]. *)
Definition _tweak_float (self : wid) (x y : option Z) (dx dy : Z)
    (w h : option Z) (dw dh : Z) : M unit :=
  win <- self_ self ;;
  let x := match x with None => Win.x win | Some x => x end + dx in
  let y := match y with None => Win.y win | Some y => y end + dy in
  let w := match w with None => Win.width win | Some w => w end + dw in
  let h := match h with None => Win.height win | Some h => h end + dh in
  let h := if h <? 0 then 0 else h in
  let w := if w <? 0 then 0 else w in
  found <- gets (fun c =>
             find_closest_screen c (Win.x win + Win.width win / 2)
                                 (Win.y win + Win.height win / 2)) ;;
  match Win._group win, found with
  | Some g, Some sc =>
      if screen_differs sc (screen g) then
        group_transfer self g sc ;;
        emit (focus_screen (index sc))
      else ret tt
  | _, _ => ret tt
  end ;;
  _reconfigure_floating self (Some x) (Some y) (Some w) (Some h) FLOATING.

Definition cmd_move_floating (self : wid) (dx dy : Z) : M unit :=
  _tweak_float self None None dx dy None None 0 0.
Definition cmd_resize_floating (self : wid) (dw dh : Z) : M unit :=
  _tweak_float self None None 0 0 None None dw dh.
Definition cmd_set_position_floating (self : wid) (x y : Z) : M unit :=
  _tweak_float self (Some x) (Some y) 0 0 None None 0 0.
Definition cmd_set_size_floating (self : wid) (w h : Z) : M unit :=
  _tweak_float self None None 0 0 (Some w) (Some h) 0 0.
Definition cmd_toggle_floating (self : wid) : M unit :=
  win <- self_ self ;; floating_set self (negb (floating win)).

(** ** Popups *)

(** Python's [round] on a number: to the nearest integer, halves to the even
    one. *)
Definition py_round (q : Q) : Z :=
  let f := Qfloor q in
  match Qcompare (q - inject_Z f) (1 # 2) with
  | Lt => f
  | Gt => f + 1
  | Eq => if Z.even f then f else f + 1
  end.

(** A Python [int] as a double, rounded to the nearest one, halves to the
    even mantissa; [None] when the integer is too large for a double, where
    Python raises [OverflowError]. *)
Definition nearest_double (z : Z) : SpecFloat.spec_float :=
  SpecFloat.binary_normalize FloatOps.prec FloatOps.emax z 0 false.

Definition double_of_int (z : Z) : option double :=
  match nearest_double z with
  | SpecFloat.S754_infinity _ | SpecFloat.S754_nan => None
  | sf => Some (FloatOps.SF2Prim sf)
  end.

(** The number a double stands for; [None] for an infinity or a NaN. *)
Definition float_value (f : double) : option Q :=
  match FloatOps.Prim2SF f with
  | SpecFloat.S754_zero _ => Some (inject_Z 0)
  | SpecFloat.S754_finite s m e =>
      Some (Qred (Qmult (inject_Z (if s then Z.neg m else Z.pos m))
                        (Qpower (inject_Z 2) e)))
  | SpecFloat.S754_infinity _ | SpecFloat.S754_nan => None
  end.

(** Python's [round] on a float: the float's own value rounded; a NaN is a
    [ValueError], an infinity an [OverflowError]. *)
Definition round (f : double) : Result Z :=
  match FloatOps.Prim2SF f with
  | SpecFloat.S754_nan => Raise ValueError
  | SpecFloat.S754_infinity _ => Raise OverflowError
  | _ => match float_value f with
         | Some q => Ok (py_round q)
         | None => Raise ValueError
         end
  end.

(** Storing a Python [int] into a C [int] field of a [Box]. *)
Definition fits_int (v : Z) : bool := (- 2 ^ 31 <=? v) && (v <? 2 ^ 31).

Definition int_field (v : Z) : Result Z :=
  if fits_int v then Ok v else Raise OverflowError.

(** [round(origin - l)] as stored into a [Box] field: [origin] is the
    field's [int], [l] a double, and the difference is taken on doubles. *)
Definition translated (origin : Z) (l : double) : Result Z :=
  match double_of_int origin with
  | None => Raise OverflowError
  | Some o =>
      match round (PrimFloat.sub o l) with
      | Ok r => int_field r
      | Raise e => Raise e
      end
  end.

(** The number the double [origin - l] stands for, if it is one. *)
Definition difference (origin : Z) (l : double) : option Q :=
  match double_of_int origin with
  | Some o => float_value (PrimFloat.sub o l)
  | None => None
  end.

(** A pure step that may raise. *)
Definition lift {A} (r : Result A) : M A := fun c => mkOutcome c [] r.

(** A Python [int] passed where the C function takes a [double]. *)
Definition as_double (z : Z) : M double :=
  match double_of_int z with
  | Some f => ret f
  | None => raise OverflowError
  end.

(** [XdgPopupWindow.__init__].  A popup object is a value here: the parent
    it records is the parent as it was when the popup was created.  The
    output's [geometry] is the [Box] the code builds from
    [get_geometry()]. *)
Definition XdgPopupWindow_init (parent : wid + XdgPopupWindow)
    (xdg_popup : XdgPopup) : M XdgPopupWindow :=
  match parent with
  | inr p =>
      let output := popup_output p in
      let output_box := popup_output_box p in
      emit (unconstrain_from_box output_box) ;;
      ret (PopupObject parent xdg_popup output output_box [])
  | inl w =>
      win <- self_ w ;;
      let box := base_geometry xdg_popup in
      layout <- gets output_layout ;;
      ax <- as_double (Win.x win + box_x box) ;;
      ay <- as_double (Win.y win + box_y box) ;;
      let point := closest_point layout ax ay in
      let lx := fst point in
      let ly := snd point in
      match output_at layout lx ly with
      | None => raise AttributeError
      | Some output =>
          let box := geometry output in
          x <- lift (translated (box_x box) lx) ;;
          y <- lift (translated (box_y box) ly) ;;
          let box := Build_Box x y (box_width box) (box_height box) in
          emit (unconstrain_from_box box) ;;
          ret (PopupObject parent xdg_popup output box [])
      end
  end.

(** [Window._on_new_popup]. *)
Definition _on_new_popup (self : wid) (xdg_popup : XdgPopup) : M unit :=
  popup <- XdgPopupWindow_init (inl self) xdg_popup ;;
  win <- self_ self ;;
  setattr self (Win.set_popups (Win.popups win ++ [popup])).

(** [XdgPopupWindow._on_new_popup]: the popup with the new child appended. *)
Definition XdgPopupWindow__on_new_popup (self : XdgPopupWindow)
    (xdg_popup : XdgPopup) : M XdgPopupWindow :=
  popup <- XdgPopupWindow_init (inr self) xdg_popup ;;
  match self with
  | PopupObject parent xdg output output_box popups =>
      ret (PopupObject parent xdg output output_box (popups ++ [popup]))
  end.

(** ** Signals *)

(** What reaches the mapped flag of a window from outside: the surface's
    map and unmap signals, and a write to [mapped]. *)
Inductive Signal :=
| map_event (w : wid)
| unmap_event (w : wid)
| write_mapped (w : wid) (mapped : bool).

Definition deliver (s : Signal) : M unit :=
  match s with
  | map_event w => _on_map w
  | unmap_event w => _on_unmap w
  | write_mapped w b => mapped_set w b
  end.

(** The state after a sequence of signals, each handled to its end. *)
Fixpoint run (sigs : list Signal) (c : Core) : Core :=
  match sigs with
  | [] => c
  | s :: rest => run rest (final (deliver s c))
  end.

(** A commit of the surface: [surface.surface.current] changes. *)
Definition surface_commit (self : wid) (w h : Z) (c : Core) : Core :=
  with_windows (upd (windows c) self (Win.set_current_size w h (windows c self))) c.

(** The four setters of the floating state machine. *)
Inductive Setter := set_floating | set_fullscreen | set_maximized | set_minimized.

Definition call (s : Setter) (self : wid) (v : bool) : M unit :=
  match s with
  | set_floating => floating_set self v
  | set_fullscreen => fullscreen_set self v
  | set_maximized => maximized_set self v
  | set_minimized => minimized_set self v
  end.

(** ** Stacking lists *)

(** The list in which window [w] is tracked. *)
Definition tracker_of (c : Core) (w : wid) : Tracker :=
  let win := windows c w in
  match Win.class win with
  | ClassWindow => CoreMapped
  | ClassStatic =>
      if Win.is_layer win then OutputLayer (Win.output win) (Win.layer win)
      else CoreMapped
  end.

Definition stacking_list (c : Core) (w : wid) : list wid :=
  tracker_get (tracker_of c w) c.

Definition Tracker_eqb (a b : Tracker) : bool :=
  match a, b with
  | CoreMapped, CoreMapped => true
  | OutputLayer o l, OutputLayer o' l' => Nat.eqb o o' && Layer_eqb l l'
  | _, _ => false
  end.

(** What a write of [mapped] does to the list the window is tracked in. *)
Definition stack_update (mapped : bool) (self : wid) (l : list wid) : list wid :=
  if mapped then
    if py_in self l then l else l ++ [self]
  else
    match py_remove self l with
    | Some l' => l'
    | None => l
    end.

(** The number of times [w] occurs in [l]. *)
Definition occurrences (w : wid) (l : list wid) : nat :=
  count_occ Nat.eq_dec l w.

(** The mapped flag of every window tells whether the window is once in its
    stacking list. *)
Definition stacking_consistent (c : Core) : Prop :=
  forall w, Win._mapped (windows c w) = true
            <-> occurrences w (stacking_list c w) = 1%nat.

(** No window is more than once in its stacking list. *)
Definition duplicate_free (c : Core) : Prop :=
  forall w, (occurrences w (stacking_list c w) <= 1)%nat.

(** Both at once: a mapped window is once in its list, an unmapped one is
    not in it. *)
Definition well_tracked (c : Core) : Prop :=
  forall w, occurrences w (stacking_list c w)
            = if Win._mapped (windows c w) then 1%nat else O.

(** The windows and the stacking lists are the same in both states. *)
Definition same_stack (c c' : Core) : Prop :=
  windows c' = windows c /\ forall t, tracker_get t c' = tracker_get t c.

(** ** Reading traces and outcomes *)

(** How many times the hook [name] was fired. *)
Fixpoint fired (name : string) (t : list Effect) : nat :=
  match t with
  | [] => O
  | hook_fire n :: rest =>
      if String.eqb n name then S (fired name rest) else fired name rest
  | _ :: rest => fired name rest
  end.

(** The sizes requested from the surface of [w], in order. *)
Fixpoint requested_sizes (w : wid) (t : list Effect) : list (Z * Z) :=
  match t with
  | [] => []
  | set_size w' width height :: rest =>
      if Nat.eqb w' w then (width, height) :: requested_sizes w rest
      else requested_sizes w rest
  | configure w' width height :: rest =>
      if Nat.eqb w' w then (width, height) :: requested_sizes w rest
      else requested_sizes w rest
  | _ :: rest => requested_sizes w rest
  end.

(** The hook bus is not called. *)
Definition not_hook (e : Effect) : Prop :=
  match e with hook_fire _ => False | _ => True end.

(** The surface is not asked for a size. *)
Definition not_resize (e : Effect) : Prop :=
  match e with set_size _ _ _ | configure _ _ _ => False | _ => True end.

(** Every run of [m] relates the state before to the state after by [R]. *)
Definition frame (R : Core -> Core -> Prop) {A} (m : M A) : Prop :=
  forall c, R c (final (m c)).

(** Every call [m] makes satisfies [P]. *)
Definition emits (P : Effect -> Prop) {A} (m : M A) : Prop :=
  forall c, Forall P (trace (m c)).

(** An attribute [f] of every window is left as it was. *)
Definition keeps {B} (f : Win.t -> B) : Core -> Core -> Prop :=
  fun c c' => forall w, f (windows c' w) = f (windows c w).

(** A computation that never raises. *)
Definition total {A} (m : M A) : Prop := forall c, returned (m c) = true.

(** [self.group and self.group.screen]. *)
Definition has_screen (win : Win.t) : bool :=
  match Win._group win with
  | Some g => match screen g with Some _ => true | None => false end
  | None => false
  end.

(** Setter [s] called with [True] on an object of class [Window] that is
    not mapped (its flag is clear and it is not in [core.mapped_windows])
    ends in an exception. *)
Definition faults_when_unmapped (s : Setter) (self : wid) (c : Core) : Prop :=
  Win.class (windows c self) = ClassWindow ->
  Win._mapped (windows c self) = false ->
  py_in self (mapped_windows c) = false ->
  returned (call s self true c) = false.



(** ** Sample states *)

(** A compositor with no outputs, whose windows are all new, 50 by 50. *)
Definition empty_core : Core :=
  Build_Core (fun _ => Win.init 50 50) [] (fun _ _ => []) []
             (Build_Seat false None)
             (Build_OutputLayout (fun x y => (x, y)) (fun _ _ => None))
             (fun _ _ => None) true.

(** Window 0 with a group shown on a screen, new and not yet mapped. *)
Definition sample_screen : Screen :=
  Build_Screen 0 0 0 1920 1080 0 24 1920 1056 "a".

Definition sample_group : Group := Build_Group "a" (Some sample_screen).

Definition grouped_core : Core :=
  with_windows
    (upd (windows empty_core) O (Win.set_group (Some sample_group) (Win.init 50 50)))
    empty_core.

(** The same window, not mapped either, in state FLOATING. *)
Definition floating_core : Core :=
  with_windows
    (upd (windows grouped_core) O
         (Win.set_float_state FLOATING (windows grouped_core O)))
    grouped_core.

(** The same window once it is mapped. *)
Definition managed_core : Core :=
  with_mapped_windows [O]
    (with_windows
       (upd (windows empty_core) O
            (Win.set_mapped true
               (Win.set_group (Some sample_group) (Win.init 50 50))))
       empty_core).

(** Window 0 in state FULLSCREEN. *)
Definition fullscreen_core : Core :=
  with_windows
    (upd (windows managed_core) O
         (Win.set_float_state FULLSCREEN (windows managed_core O)))
    managed_core.

(** A compositor with one layer surface (window 3, on output 0, layer TOP)
    next to ordinary windows. *)
Definition layer_core : Core :=
  with_windows
    (upd (windows empty_core) 3%nat
         (Win.mk ClassStatic None false 0 0 1920 24 0 (_rgb (0, 0, 0, 1))
                 FLOATING 0 0 0 0 [] true O TOP))
    empty_core.

(** One output of 1920 by 1080 at (100, 0) and window 0 at (100, 100). *)
Definition popup_output_0 : Output := Build_Output O (Build_Box 100 0 1920 1080).

Definition popup_core : Core :=
  Build_Core
    (upd (windows empty_core) O (Win.set_y 100 (Win.set_x 100 (Win.init 50 50))))
    [] (fun _ _ => []) [popup_output_0] (Build_Seat false None)
    (Build_OutputLayout (fun x y => (x, y)) (fun _ _ => Some popup_output_0))
    (fun _ _ => None) true.

(** The double [105.0]. *)
Definition double_105 : double := FloatOps.SF2Prim (nearest_double 105).

(** The largest double below one half, [0.49999999999999994]. *)
Definition below_half : double :=
  FloatOps.SF2Prim (SpecFloat.S754_finite false (2 ^ 53 - 1) (-54)).

(** * Properties *)

(** ** Equality tests *)

Lemma FloatStates_eqb_eq a b : FloatStates_eqb a b = true <-> a = b.
Proof. destruct a, b; simpl; split; congruence. Qed.


Lemma Layer_eqb_eq a b : Layer_eqb a b = true <-> a = b.
Proof. destruct a, b; simpl; split; congruence. Qed.

(** ** Laws of the computations *)

Lemma bind_ok {A B} (m : M A) (k : A -> M B) (c : Core) (a : A) :
  result (m c) = Ok a ->
  bind m k c =
  mkOutcome (final (k a (final (m c)))) (trace (m c) ++ trace (k a (final (m c))))
            (result (k a (final (m c)))).
Proof. intros H. unfold bind. cbv zeta. now rewrite H. Qed.

Lemma bind_raise {A B} (m : M A) (k : A -> M B) (c : Core) (e : Exn) :
  result (m c) = Raise e ->
  bind m k c = mkOutcome (final (m c)) (trace (m c)) (Raise e).
Proof. intros H. unfold bind. cbv zeta. now rewrite H. Qed.


Lemma upd_same ws w v : upd ws w v w = v.
Proof. unfold upd. now rewrite Nat.eqb_refl. Qed.

Lemma upd_other ws w v w' : w' <> w -> upd ws w v w' = ws w'.
Proof. intros H. unfold upd. apply Nat.eqb_neq in H. now rewrite H. Qed.

Lemma bind_gets {A B} (f : Core -> A) (k : A -> M B) (c : Core) :
  bind (gets f) k c = k (f c) c.
Proof. unfold bind, gets. simpl. now destruct (k (f c) c). Qed.

(** *** Running a computation step by step *)

Lemma outcome_eta {A} (o : Outcome A) :
  mkOutcome (final o) (trace o) (result o) = o.
Proof. now destruct o. Qed.

Lemma bind_ret {A B} (a : A) (k : A -> M B) (c : Core) :
  bind (ret a) k c = k a c.
Proof. unfold bind, ret. simpl. apply outcome_eta. Qed.

Lemma bind_modify {B} (f : Core -> Core) (k : unit -> M B) (c : Core) :
  bind (modify f) k c = k tt (f c).
Proof. unfold bind, modify. simpl. apply outcome_eta. Qed.

Lemma bind_setattr {B} self g (k : unit -> M B) (c : Core) :
  bind (setattr self g) k c
  = k tt (with_windows (upd (windows c) self (g (windows c self))) c).
Proof. unfold setattr. now rewrite bind_modify. Qed.

Lemma bind_emit {B} (e : Effect) (k : unit -> M B) (c : Core) :
  bind (emit e) k c
  = mkOutcome (final (k tt c)) (e :: trace (k tt c)) (result (k tt c)).
Proof. reflexivity. Qed.

Lemma bind_raise_now {A B} (e : Exn) (k : A -> M B) (c : Core) :
  bind (raise e) k c = mkOutcome c [] (Raise e).
Proof. reflexivity. Qed.

Lemma bind_bind {A B C} (m : M A) (k1 : A -> M B) (k2 : B -> M C) (c : Core) :
  bind (bind m k1) k2 c = bind m (fun a => bind (k1 a) k2) c.
Proof.
  unfold bind. cbv zeta. destruct (result (m c)) as [a|e]; simpl; [|reflexivity].
  destruct (result (k1 a (final (m c)))); simpl; [|reflexivity].
  now rewrite app_assoc.
Qed.

Lemma with_windows_twice v v' c :
  with_windows v (with_windows v' c) = with_windows v c.
Proof. reflexivity. Qed.

Ltac simp_core_once :=
  cbn [final trace result windows mapped_windows layers outputs seat
       output_layout find_closest_screen auto_fullscreen with_windows
       with_mapped_windows with_layers with_seat tracker_get tracker_set
       Win.class Win._group Win._mapped Win.x Win.y Win.width Win.height
       Win.borderwidth Win.bordercolor Win._float_state Win.float_x
       Win.float_y Win.float_width Win.float_height Win.popups Win.is_layer
       Win.output Win.layer Win.set_group Win.set_mapped Win.set_x Win.set_y
       Win.set_current_size Win.set_borderwidth Win.set_bordercolor
       Win.set_float_state Win.set_float_width Win.set_float_height
       Win.set_popups ret raise emit gets modify setattr];
  rewrite ?upd_same, ?with_windows_twice.

Ltac simp_core := simp_core_once; repeat (progress simp_core_once).

Ltac exec :=
  repeat (first
    [ rewrite bind_bind
    | rewrite bind_ret
    | rewrite bind_gets
    | rewrite bind_setattr
    | rewrite bind_modify
    | rewrite bind_emit
    | rewrite bind_raise_now ]; simp_core).

(** *** Frames and traces *)

(** A relation that every step of a computation respects is respected by
    the computation. *)
Section Frame.
Variable R : Core -> Core -> Prop.
Hypothesis R_refl : forall c, R c c.
Hypothesis R_trans : forall a b c, R a b -> R b c -> R a c.

Lemma frame_ret {A} (a : A) : frame R (ret a).
Proof. intros c. apply R_refl. Qed.

Lemma frame_raise {A} (e : Exn) : frame R (@raise A e).
Proof. intros c. apply R_refl. Qed.

Lemma frame_emit (e : Effect) : frame R (emit e).
Proof. intros c. apply R_refl. Qed.

Lemma frame_gets {A} (f : Core -> A) : frame R (gets f).
Proof. intros c. apply R_refl. Qed.

Lemma frame_bind {A B} (m : M A) (k : A -> M B) :
  frame R m -> (forall a, frame R (k a)) -> frame R (bind m k).
Proof.
  intros Hm Hk c. unfold bind. cbv zeta.
  destruct (result (m c)) as [a|e]; simpl.
  - eapply R_trans; [apply Hm | apply Hk].
  - apply Hm.
Qed.
End Frame.

(** So is a property of every call made. *)
Section Emits.
Variable P : Effect -> Prop.

Lemma emits_ret {A} (a : A) : emits P (ret a).
Proof. intros c. constructor. Qed.

Lemma emits_raise {A} (e : Exn) : emits P (@raise A e).
Proof. intros c. constructor. Qed.

Lemma emits_gets {A} (f : Core -> A) : emits P (gets f).
Proof. intros c. constructor. Qed.

Lemma emits_modify (f : Core -> Core) : emits P (modify f).
Proof. intros c. constructor. Qed.

Lemma emits_emit (e : Effect) : P e -> emits P (emit e).
Proof. intros H c. simpl. now repeat constructor. Qed.

Lemma emits_bind {A B} (m : M A) (k : A -> M B) :
  emits P m -> (forall a, emits P (k a)) -> emits P (bind m k).
Proof.
  intros Hm Hk c. unfold bind. cbv zeta.
  destruct (result (m c)) as [a|e]; simpl.
  - apply Forall_app. split; [apply Hm | apply Hk].
  - apply Hm.
Qed.
End Emits.

Lemma keeps_refl {B} (f : Win.t -> B) c : keeps f c c.
Proof. now intros w. Qed.

Lemma keeps_trans {B} (f : Win.t -> B) a b c :
  keeps f a b -> keeps f b c -> keeps f a c.
Proof. intros H1 H2 w. now rewrite H2, H1. Qed.

Lemma keeps_setattr {B} (f : Win.t -> B) (self : wid) (g : Win.t -> Win.t) :
  (forall win, f (g win) = f win) -> frame (keeps f) (setattr self g).
Proof.
  intros H c w. simpl. unfold upd.
  destruct (Nat.eqb w self) eqn:E; [|reflexivity].
  apply Nat.eqb_eq in E. subst. apply H.
Qed.

Lemma keeps_modify {B} (f : Win.t -> B) (g : Core -> Core) :
  (forall c, windows (g c) = windows c) -> frame (keeps f) (modify g).
Proof. intros H c w. simpl. now rewrite H. Qed.

Lemma windows_tracker_set t v c : windows (tracker_set t v c) = windows c.
Proof. now destruct t. Qed.

Lemma keeps_Window_damage {B} (f : Win.t -> B) self :
  frame (keeps f) (Window_damage self).
Proof. intros c w. reflexivity. Qed.

Lemma emits_Window_damage (P : Effect -> Prop) self :
  (forall o, P (damage_add_whole o)) -> emits P (Window_damage self).
Proof.
  intros H c. unfold Window_damage. simpl.
  apply Forall_forall. intros e He. apply in_map_iff in He.
  destruct He as [o [<- _]]. apply H.
Qed.

(** Structural proofs of [frame (keeps f)] and [emits P] goals. *)
Ltac step_frame :=
  first
    [ apply frame_bind; [apply keeps_trans | | intros ?]
    | apply frame_ret; apply keeps_refl
    | apply frame_raise; apply keeps_refl
    | apply frame_emit; apply keeps_refl
    | apply frame_gets; apply keeps_refl
    | apply keeps_Window_damage
    | apply keeps_setattr; intros ?; reflexivity
    | apply keeps_modify; intros ?; first [reflexivity | apply windows_tracker_set]
    | match goal with
      | |- frame _ (match ?x with _ => _ end) => destruct x
      end ].

Ltac step_emits :=
  first
    [ apply emits_bind; [| intros ?]
    | apply emits_ret
    | apply emits_raise
    | apply emits_gets
    | apply emits_modify
    | apply emits_Window_damage; intros ?; exact I
    | apply emits_emit; exact I
    | match goal with
      | |- emits _ (match ?x with _ => _ end) => destruct x
      end ].

Lemma fired_app name a b : fired name (a ++ b) = (fired name a + fired name b)%nat.
Proof.
  induction a as [|e a IH]; simpl; [reflexivity|].
  destruct e; try exact IH. destruct (String.eqb name0 name); simpl; now rewrite IH.
Qed.

Lemma fired_not_hook name t : Forall not_hook t -> fired name t = O.
Proof.
  induction 1 as [|e t He _ IH]; simpl; [reflexivity|].
  destruct e; try exact IH. destruct He.
Qed.

Lemma requested_sizes_app w a b :
  requested_sizes w (a ++ b) = requested_sizes w a ++ requested_sizes w b.
Proof.
  induction a as [|e a IH]; simpl; [reflexivity|].
  destruct e; try exact IH; destruct (Nat.eqb w0 w); simpl; now rewrite IH.
Qed.

Lemma requested_sizes_not_resize w t :
  Forall not_resize t -> requested_sizes w t = [].
Proof.
  induction 1 as [|e t He _ IH]; simpl; [reflexivity|].
  destruct e; try exact IH; destruct He.
Qed.

Lemma hide_not_hook self : emits not_hook (hide self).
Proof.
  unfold hide, _on_unmap, Window__on_unmap, Static__on_unmap, mapped_set,
    Window_mapped_set, Static_mapped_set, damage, Static_damage,
    seat_keyboard_clear_focus, list_append, list_remove, self_, setattr.
  repeat step_emits.
Qed.

(** ** Leaving the floating states *)

(** [floating = True] on a window that is not tiled does nothing. *)
Lemma floating_set_true_noop c self :
  Win._float_state (windows c self) <> NOT_FLOATING ->
  floating_set self true c = mkOutcome c [] (Ok tt).
Proof.
  intros H. unfold floating_set, bind, self_, gets. simpl.
  destruct (Win._float_state (windows c self)); try congruence; reflexivity.
Qed.

(** What [floating = False] does to a window that is not tiled. *)
Lemma floating_set_false_spec c self :
  Win._float_state (windows c self) <> NOT_FLOATING ->
  let win := windows c self in
  let o := floating_set self false c in
  Win._float_state (windows (final o) self) = NOT_FLOATING
  /\ Win.float_width (windows (final o) self) =
       (if FloatStates_eqb (Win._float_state win) FLOATING
        then Win.width win else Win.float_width win)
  /\ Win.float_height (windows (final o) self) =
       (if FloatStates_eqb (Win._float_state win) FLOATING
        then Win.height win else Win.float_height win)
  /\ Win.float_x (windows (final o) self) = Win.float_x win
  /\ Win.float_y (windows (final o) self) = Win.float_y win
  /\ Forall not_resize (trace o)
  /\ result o = match Win._group win with
                | Some _ => Ok tt
                | None => Raise AttributeError
                end
  /\ fired "float_change" (trace o) =
       match Win._group win with Some _ => 1%nat | None => O end.
Proof.
  intros H. unfold floating_set, bind, self_, gets, setattr, modify, emit, raise, ret.
  simpl.
  destruct (Win._float_state (windows c self)) eqn:E; try congruence;
    destruct (Win._group (windows c self)) eqn:G; simpl;
    rewrite ?upd_same; simpl; rewrite ?upd_same; simpl; rewrite ?G; simpl;
    repeat split; repeat constructor.
Qed.

(** C2: on a window in state FLOATING, [floating = True] followed by
    [floating = False] ends in state NOT_FLOATING with [float_width] and
    [float_height] equal to the width and height the surface reported just
    before the second call.  The first call returns; the second returns
    when the window has a group, and otherwise ends, after these updates,
    in the [AttributeError] of [self.group.mark_floating]. *)
Theorem floating_twice_saves_surface_size (c : Core) (self : wid) :
  Win._float_state (windows c self) = FLOATING ->
  let first := floating_set self true c in
  let second := floating_set self false (final first) in
  Win._float_state (windows (final second) self) = NOT_FLOATING
  /\ Win.float_width (windows (final second) self) =
       Win.width (windows (final first) self)
  /\ Win.float_height (windows (final second) self) =
       Win.height (windows (final first) self)
  /\ result first = Ok tt
  /\ result second = match Win._group (windows c self) with
                     | Some _ => Ok tt
                     | None => Raise AttributeError
                     end.
Proof.
  intros H first second. subst first second.
  rewrite floating_set_true_noop by congruence. simpl.
  assert (H' : Win._float_state (windows c self) <> NOT_FLOATING) by congruence.
  destruct (floating_set_false_spec c self H')
    as (Hs & Hw & Hh & _ & _ & _ & Hr & _).
  rewrite H in Hw, Hh. simpl in Hw, Hh.
  repeat split; assumption.
Qed.

Lemma floating_twice_saves_surface_size_witness :
  Win._float_state (windows (final (floating_set O true empty_core)) O) = FLOATING
  /\ Win._float_state
       (windows
          (final (floating_set O false
                    (final (floating_set O true
                              (final (floating_set O true empty_core)))))) O)
     = NOT_FLOATING.
Proof.
  split; [reflexivity|].
  apply (floating_twice_saves_surface_size
           (final (floating_set O true empty_core)) O).
  reflexivity.
Defined.

Lemma surface_commit_self c self w h :
  windows (surface_commit self w h c) self
  = Win.set_current_size w h (windows c self).
Proof. unfold surface_commit. simpl. apply upd_same. Qed.

(** The size saved is the one the surface has when [floating = False] runs,
    also when the surface committed a new size since the window floated. *)
Lemma floating_off_after_commit (c : Core) (self : wid) (w h : Z) :
  Win._float_state (windows c self) = FLOATING ->
  let after := final (floating_set self false (surface_commit self w h c)) in
  Win.float_width (windows after self) = w
  /\ Win.float_height (windows after self) = h.
Proof.
  intros H after. subst after.
  assert (H' : Win._float_state (windows (surface_commit self w h c) self)
               = FLOATING).
  { rewrite surface_commit_self. exact H. }
  assert (H'' : Win._float_state (windows (surface_commit self w h c) self)
               <> NOT_FLOATING) by congruence.
  destruct (floating_set_false_spec _ self H'') as (_ & Hw & Hh & _).
  rewrite H' in Hw, Hh. rewrite surface_commit_self in Hw, Hh.
  split; [exact Hw | exact Hh].
Qed.

(** C3: on a window in state FULLSCREEN, [fullscreen = False] is
    [floating = False]: the state becomes NOT_FLOATING, the float memory is
    left as it was and no geometry is requested from the surface.  The call
    returns when the window has a group, and otherwise ends, after the
    state is set, in the [AttributeError] of [self.group.mark_floating]. *)
Theorem fullscreen_off_goes_to_tiling (c : Core) (self : wid) :
  Win._float_state (windows c self) = FULLSCREEN ->
  let o := fullscreen_set self false c in
  let win := windows c self in
  let win' := windows (final o) self in
  o = floating_set self false c
  /\ Win._float_state win' = NOT_FLOATING
  /\ Win.float_x win' = Win.float_x win
  /\ Win.float_y win' = Win.float_y win
  /\ Win.float_width win' = Win.float_width win
  /\ Win.float_height win' = Win.float_height win
  /\ requested_sizes self (trace o) = []
  /\ result o = match Win._group win with
                | Some _ => Ok tt
                | None => Raise AttributeError
                end.
Proof.
  intros H o win win'.
  assert (E : o = floating_set self false c).
  { subst o. unfold fullscreen_set, self_. rewrite bind_gets.
    now rewrite H. }
  assert (H' : Win._float_state (windows c self) <> NOT_FLOATING) by congruence.
  destruct (floating_set_false_spec c self H')
    as (Hs & Hw & Hh & Hx & Hy & Hn & Hr & _).
  rewrite H in Hw, Hh. simpl in Hw, Hh.
  subst win win'. rewrite E.
  repeat split; try assumption.
  now apply requested_sizes_not_resize.
Qed.

Lemma fullscreen_off_goes_to_tiling_witness :
  Win._float_state (windows fullscreen_core O) = FULLSCREEN
  /\ Win._float_state (windows (final (fullscreen_set O false fullscreen_core)) O)
     = NOT_FLOATING.
Proof.
  split; [reflexivity|].
  apply (fullscreen_off_goes_to_tiling fullscreen_core O). reflexivity.
Defined.

(** ** Fullscreen and maximize without a group *)

(** [self.group.screen] on a window without a group raises. *)
Lemma pick_screen_without_group c self :
  Win._group (windows c self) = None ->
  pick_screen self c = mkOutcome c [] (Raise AttributeError).
Proof.
  intros H. unfold pick_screen, bind, self_, gets. simpl. now rewrite H.
Qed.

Lemma fullscreen_without_group c self :
  Win._group (windows c self) = None ->
  fullscreen_set self true c = mkOutcome c [] (Raise AttributeError)
  /\ maximized_set self true c = mkOutcome c [] (Raise AttributeError).
Proof.
  intros H. unfold fullscreen_set, maximized_set.
  split; (erewrite bind_raise;
          [rewrite pick_screen_without_group by assumption; reflexivity
          |rewrite pick_screen_without_group by assumption; reflexivity]).
Qed.

(** C4: a new window (no group) on a compositor with no output:
    [fullscreen = True] and [maximized = True] both end in an
    [AttributeError]; nothing is placed and the state stays NOT_FLOATING. *)
Theorem fullscreen_maximize_fault_without_group :
  result (fullscreen_set O true empty_core) = Raise AttributeError
  /\ result (maximized_set O true empty_core) = Raise AttributeError
  /\ Win._float_state (windows (final (fullscreen_set O true empty_core)) O)
     = NOT_FLOATING.
Proof. repeat split. Qed.

(** ** Placement *)

Lemma damage_not_resize self : emits not_resize (damage self).
Proof. unfold damage, Static_damage, self_. repeat step_emits. Qed.

Lemma damage_final self c : final (damage self c) = c.
Proof.
  unfold damage, Static_damage, self_. rewrite bind_gets.
  destruct (Win.class (windows c self)); [reflexivity|].
  rewrite bind_gets. now destruct (Win.is_layer (windows c self)).
Qed.

Lemma damage_result self c : result (damage self c) = Ok tt.
Proof.
  unfold damage, Static_damage, self_. rewrite bind_gets.
  destruct (Win.class (windows c self)); [reflexivity|].
  rewrite bind_gets. now destruct (Win.is_layer (windows c self)).
Qed.

Lemma requested_sizes_set_size self w h t :
  requested_sizes self (set_size self w h :: t) = (w, h) :: requested_sizes self t.
Proof. simpl. now rewrite Nat.eqb_refl. Qed.

(** What [Window.place] does without a margin. *)
Lemma Window_place_outcome c self x y w h bw bc above rh :
  let o := Window_place self x y w h bw bc above None rh c in
  Win.x (windows (final o) self) = x
  /\ Win.y (windows (final o) self) = y
  /\ requested_sizes self (trace o) = [(w, h)]
  /\ result o =
       (if above then
          match py_remove self (mapped_windows c) with
          | Some _ => Ok tt
          | None => Raise ValueError
          end
        else Ok tt)
  /\ mapped_windows (final o) =
       (if above then
          match py_remove self (mapped_windows c) with
          | Some l => l ++ [self]
          | None => mapped_windows c
          end
        else mapped_windows c).
Proof.
  unfold Window_place, paint_borders, list_remove, list_append.
  exec.
  assert (Hd : requested_sizes self
                 (trace (damage self c)) = []).
  { apply requested_sizes_not_resize, damage_not_resize. }
  destruct bc; exec; (destruct above; exec;
    [destruct (py_remove self (mapped_windows c)); exec|]);
    rewrite ?damage_final, ?damage_result; simp_core;
    rewrite ?Nat.eqb_refl;
    repeat split;
    rewrite requested_sizes_set_size;
    try (rewrite requested_sizes_not_resize; [reflexivity | apply damage_not_resize]);
    reflexivity.
Qed.

(** A margin is applied before anything else: placing with a four-sided
    margin is placing the shrunk rectangle. *)
Lemma Window_place_margin_list c self x y w h bw bc above rh t r b l more :
  Window_place self x y w h bw bc above
               (Some (margin_list (t :: r :: b :: l :: more))) rh c
  = Window_place self (x + l) (y + t) (w - (r + l)) (h - (t + b))
                 bw bc above None rh c.
Proof.
  unfold Window_place, subscript. cbn [nth_error]. exec. reflexivity.
Qed.

Lemma Window_place_margin_int c self x y w h bw bc above rh m :
  Window_place self x y w h bw bc above (Some (margin_int m)) rh c
  = Window_place self x y w h bw bc above (Some (margin_list [m; m; m; m])) rh c.
Proof. reflexivity. Qed.

(** A margin list with fewer than four entries: [margin[3]] raises before
    anything is changed. *)
Lemma Window_place_short_margin c self x y w h bw bc above rh l :
  (List.length l < 4)%nat ->
  Window_place self x y w h bw bc above (Some (margin_list l)) rh c
  = mkOutcome c [] (Raise IndexError).
Proof.
  intros H. unfold Window_place, subscript.
  assert (E : nth_error l 3 = None) by (apply nth_error_None; lia).
  rewrite E. exec. reflexivity.
Qed.

(** C7: [Window.place] applies a four-sided margin [top, right, bottom,
    left] as x += left, y += top, width -= left + right, height -= top +
    bottom, and an integer margin as the same margin on all four sides;
    margin 10 on the rectangle (0, 0, 100, 100) gives (10, 10, 80, 80). *)
Theorem place_applies_margin (c : Core) (self : wid)
    (x y width height bw : Z) (bc : option Color) (above rh : bool)
    (top right bottom left m : Z) :
  let sided := Window_place self x y width height bw bc above
                 (Some (margin_list [top; right; bottom; left])) rh c in
  let scalar := Window_place self x y width height bw bc above
                  (Some (margin_int m)) rh c in
  let ten := Window_place self 0 0 100 100 bw bc above
               (Some (margin_int 10)) rh c in
  Win.x (windows (final sided) self) = x + left
  /\ Win.y (windows (final sided) self) = y + top
  /\ requested_sizes self (trace sided)
     = [(width - (left + right), height - (top + bottom))]
  /\ scalar = Window_place self x y width height bw bc above
                (Some (margin_list [m; m; m; m])) rh c
  /\ Win.x (windows (final ten) self) = 10
  /\ Win.y (windows (final ten) self) = 10
  /\ requested_sizes self (trace ten) = [(80, 80)].
Proof.
  intros sided scalar ten. subst sided scalar ten.
  rewrite Window_place_margin_int, !(Window_place_margin_list _ _ _ _ _ _ _ _ _ _ _ _ _ _ []).
  destruct (Window_place_outcome c self (x + left) (y + top)
              (width - (right + left)) (height - (top + bottom)) bw bc above rh)
    as (Hx & Hy & Hs & _).
  destruct (Window_place_outcome c self (0 + 10) (0 + 10)
              (100 - (10 + 10)) (100 - (10 + 10)) bw bc above rh)
    as (Hx' & Hy' & Hs' & _).
  repeat split; try assumption.
  rewrite Hs. now replace (right + left) with (left + right) by lia.
Qed.

(** Placement through [place] on an object of class [Window]. *)
Lemma place_Window c self x y w h bw bc above margin rh :
  Win.class (windows c self) = ClassWindow ->
  place self x y w h bw bc above margin rh c
  = Window_place self x y w h bw bc above margin rh c.
Proof. intros H. unfold place, self_. rewrite bind_gets. now rewrite H. Qed.

Lemma place_Static c self x y w h bw bc above margin rh :
  Win.class (windows c self) = ClassStatic ->
  place self x y w h bw bc above margin rh c
  = Static_place self x y w h bw bc above margin rh c.
Proof. intros H. unfold place, self_. rewrite bind_gets. now rewrite H. Qed.

Ltac step_frame_with :=
  first
    [ step_frame
    | apply keeps_setattr; intros ?; solve [auto] ].

(** Placement changes the position and the border of the window and
    nothing else of any window. *)
Lemma place_keeps {B} (f : Win.t -> B) self x y w h bw bc above margin rh :
  (forall v win, f (Win.set_x v win) = f win) ->
  (forall v win, f (Win.set_y v win) = f win) ->
  (forall v win, f (Win.set_bordercolor v win) = f win) ->
  (forall v win, f (Win.set_borderwidth v win) = f win) ->
  frame (keeps f) (place self x y w h bw bc above margin rh).
Proof.
  intros Hx Hy Hc Hw.
  unfold place, Window_place, Static_place, subscript, paint_borders, damage,
    Static_damage, list_remove, list_append, self_.
  repeat step_frame_with.
Qed.

(** Hiding changes the mapped flag and nothing else of any window. *)
Lemma hide_keeps {B} (f : Win.t -> B) self :
  (forall v win, f (Win.set_mapped v win) = f win) ->
  frame (keeps f) (hide self).
Proof.
  intros Hm.
  unfold hide, _on_unmap, Window__on_unmap, Static__on_unmap, mapped_set,
    Window_mapped_set, Static_mapped_set, damage, Static_damage,
    seat_keyboard_clear_focus, list_append, list_remove, self_.
  repeat step_frame_with.
Qed.

Lemma place_not_hook self x y w h bw bc above margin rh :
  emits not_hook (place self x y w h bw bc above margin rh).
Proof.
  unfold place, Window_place, Static_place, subscript, paint_borders, damage,
    Static_damage, list_remove, list_append, self_, setattr.
  repeat step_emits.
Qed.

Lemma hide_not_resize self : emits not_resize (hide self).
Proof.
  unfold hide, _on_unmap, Window__on_unmap, Static__on_unmap, mapped_set,
    Window_mapped_set, Static_mapped_set, damage, Static_damage,
    seat_keyboard_clear_focus, list_append, list_remove, self_, setattr.
  repeat step_emits.
Qed.

(** ** Reconfiguring *)

Lemma place_requests c self x y w h bw bc above rh :
  requested_sizes self (trace (place self x y w h bw bc above None rh c))
  = [(w, h)].
Proof.
  destruct (Win.class (windows c self)) eqn:E.
  - rewrite place_Window by assumption. apply Window_place_outcome.
  - rewrite place_Static by assumption.
    unfold Static_place, paint_borders, self_. exec.
    destruct (Win.is_layer (windows c self)); exec.
    + cbn [requested_sizes]. rewrite Nat.eqb_refl.
      rewrite requested_sizes_not_resize; [reflexivity | apply damage_not_resize].
    + destruct bc; exec; rewrite requested_sizes_set_size;
        (rewrite requested_sizes_not_resize; [reflexivity | apply damage_not_resize]).
Qed.

(** The tail of [_reconfigure_floating]: recording the new state. *)
Lemma reconfigure_tail c self st :
  let win := windows c self in
  let o :=
    (win <- self_ self ;;
     if negb (FloatStates_eqb (Win._float_state win) st) then
       setattr self (Win.set_float_state st) ;;
       match Win._group win with
       | Some g => emit (mark_floating (group_name g) self true)
       | None => ret tt
       end ;;
       emit (hook_fire "float_change")
     else ret tt) c in
  result o = Ok tt
  /\ Win._float_state (windows (final o) self) = st
  /\ fired "float_change" (trace o)
     = (if FloatStates_eqb (Win._float_state win) st then O else 1%nat)
  /\ Forall not_resize (trace o)
  /\ (forall w, Win.set_float_state st (windows (final o) w)
                = Win.set_float_state st (windows c w)).
Proof.
  intros win o. subst win o. unfold self_. exec.
  destruct (FloatStates_eqb (Win._float_state (windows c self)) st) eqn:E;
    cbn [negb]; exec.
  - apply FloatStates_eqb_eq in E. simpl. repeat split; auto.
  - destruct (Win._group (windows c self)); exec;
      (split; [reflexivity|]); (split; [reflexivity|]);
      (split; [reflexivity|]); (split; [repeat constructor|]);
      intros w; unfold upd; destruct (Nat.eqb w self) eqn:W; try reflexivity;
      apply Nat.eqb_eq in W; now subst.
Qed.

(** [_reconfigure_floating], by the outcome of its first half (hiding or
    placing). *)
Lemma reconfigure_outcome c self x y w h st :
  let o := _reconfigure_floating self x y w h st c in
  let before := Win._float_state (windows c self) in
  let after := Win._float_state (windows (final o) self) in
  (returned o = true ->
     after = st
     /\ fired "float_change" (trace o)
        = (if FloatStates_eqb before st then O else 1%nat))
  /\ (returned o = false ->
      after = before /\ fired "float_change" (trace o) = O).
Proof.
  intros o before after. subst o before after.
  unfold _reconfigure_floating.
  set (m1 := (if FloatStates_eqb st MINIMIZED then hide self else _) : M unit).
  assert (K : frame (keeps Win._float_state) m1).
  { subst m1. destruct (FloatStates_eqb st MINIMIZED).
    - now apply hide_keeps.
    - unfold self_. apply frame_bind; [apply keeps_trans | step_frame | intros win].
      destruct x, y, w, h; first [now apply place_keeps | step_frame]. }
  assert (N : emits not_hook m1).
  { subst m1. destruct (FloatStates_eqb st MINIMIZED).
    - apply hide_not_hook.
    - unfold self_. apply emits_bind; [step_emits | intros win].
      destruct x, y, w, h; first [apply place_not_hook | step_emits]. }
  specialize (K c self). specialize (N c).
  apply (fired_not_hook "float_change") in N.
  destruct (result (m1 c)) as [[]|e] eqn:R.
  - rewrite (bind_ok _ _ _ _ R). cbn [final trace result].
    destruct (reconfigure_tail (final (m1 c)) self st) as (Hr & Hs & Hf & _).
    unfold returned. cbn [result]. rewrite Hr.
    split; [intros _ | discriminate].
    split; [exact Hs|]. rewrite fired_app, N, Hf, K. reflexivity.
  - rewrite (bind_raise _ _ _ _ R). unfold returned. cbn [final trace result].
    split; [discriminate | intros _]. split; [exact K | exact N].
Qed.

(** ** Restacking a window that is not in the stacking list *)

Lemma py_remove_absent w l : py_in w l = false -> py_remove w l = None.
Proof.
  induction l as [|a l IH]; simpl; [reflexivity|].
  rewrite (Nat.eqb_sym w a).
  destruct (Nat.eqb a w); simpl; [discriminate|].
  intros H. now rewrite IH.
Qed.

Lemma py_remove_present w l : py_in w l = true -> exists l', py_remove w l = Some l'.
Proof.
  induction l as [|a l IH]; simpl; [discriminate|].
  rewrite (Nat.eqb_sym w a).
  destruct (Nat.eqb a w); simpl; [now exists l|].
  intros H. destruct (IH H) as [l' ->]. now exists (a :: l').
Qed.

Lemma pick_screen_pure c self :
  final (pick_screen self c) = c /\ trace (pick_screen self c) = [].
Proof.
  unfold pick_screen, self_. exec.
  destruct (Win._group (windows c self)) as [g|]; [|now split].
  destruct (screen g); [now split|]. exec.
  destruct (find_closest_screen c _ _); now split.
Qed.

(** When placing raises, reconfiguring raises the same exception. *)
Lemma reconfigure_place_raises c self x y w h st e :
  FloatStates_eqb st MINIMIZED = false ->
  result (place self x y w h (Win.borderwidth (windows c self))
                (Some (Win.bordercolor (windows c self))) true None true c)
  = Raise e ->
  result (_reconfigure_floating self (Some x) (Some y) (Some w) (Some h) st c)
  = Raise e.
Proof.
  intros Hst R. unfold _reconfigure_floating, self_. rewrite Hst.
  rewrite bind_bind, bind_gets. cbv beta.
  now rewrite (bind_raise _ _ _ _ R).
Qed.

Lemma place_above_absent c self x y w h bw bc rh :
  Win.class (windows c self) = ClassWindow ->
  py_in self (mapped_windows c) = false ->
  let o := place self x y w h bw bc true None rh c in
  result o = Raise ValueError /\ mapped_windows (final o) = mapped_windows c.
Proof.
  intros Hc Hin o. subst o. rewrite place_Window by assumption.
  destruct (Window_place_outcome c self x y w h bw bc true rh)
    as (_ & _ & _ & Hr & Hm).
  rewrite (py_remove_absent _ _ Hin) in Hr, Hm. now split.
Qed.

(** With a margin it is the same, unless the margin list is too short and
    [place] raises before it gets there. *)
Lemma place_above_absent_margin c self x y w h bw bc margin rh :
  Win.class (windows c self) = ClassWindow ->
  py_in self (mapped_windows c) = false ->
  let o := place self x y w h bw bc true margin rh c in
  returned o = false /\ mapped_windows (final o) = mapped_windows c.
Proof.
  intros Hc Hin o. subst o.
  assert (P : forall x y w h,
             returned (place self x y w h bw bc true None rh c) = false
             /\ mapped_windows (final (place self x y w h bw bc true None rh c))
                = mapped_windows c).
  { intros x' y' w' h'.
    destruct (place_above_absent c self x' y' w' h' bw bc rh Hc Hin) as [Hr Hm].
    unfold returned. now rewrite Hr. }
  destruct margin as [[m|l]|]; [| |apply P].
  - rewrite place_Window, Window_place_margin_int, Window_place_margin_list,
      <- place_Window by assumption. apply P.
  - destruct l as [|t [|r [|b [|lf more]]]];
      try (rewrite place_Window, Window_place_short_margin
             by (assumption || (simpl; lia));
           split; reflexivity).
    rewrite place_Window, Window_place_margin_list, <- place_Window
      by assumption. apply P.
Qed.

(** C10: on an object of class [Window] that is not in
    [core.mapped_windows], [place] with [above = True] ends in the
    [ValueError] of [list.remove] (with any margin it raises) and leaves
    the list as it was;
    [floating = True] raises it as soon as it reaches [place] (the window
    is tiled and its group has a screen), and [fullscreen = True] and
    [maximized = True] raise it whenever a screen is found (and an
    [AttributeError] otherwise); the float state is left as it was. *)
Theorem place_above_faults_when_unstacked (c : Core) (self : wid) :
  Win.class (windows c self) = ClassWindow ->
  py_in self (mapped_windows c) = false ->
  let win := windows c self in
  let reaches_place :=
    FloatStates_eqb (Win._float_state win) NOT_FLOATING && has_screen win in
  let after (o : Outcome unit) := Win._float_state (windows (final o) self) in
  (forall x y w h bw bc rh,
      result (place self x y w h bw bc true None rh c) = Raise ValueError)
  /\ (forall x y w h bw bc margin rh,
        returned (place self x y w h bw bc true margin rh c) = false
        /\ mapped_windows (final (place self x y w h bw bc true margin rh c))
           = mapped_windows c)
  /\ result (floating_set self true c)
     = (if reaches_place then Raise ValueError else Ok tt)
  /\ result (fullscreen_set self true c)
     = match result (pick_screen self c) with
       | Ok _ => Raise ValueError
       | Raise e => Raise e
       end
  /\ result (maximized_set self true c)
     = match result (pick_screen self c) with
       | Ok _ => Raise ValueError
       | Raise e => Raise e
       end
  /\ after (floating_set self true c)
     = (if FloatStates_eqb (Win._float_state win) NOT_FLOATING
           && negb (has_screen win)
        then FLOATING else Win._float_state win)
  /\ after (fullscreen_set self true c) = Win._float_state win
  /\ after (maximized_set self true c) = Win._float_state win.
Proof.
  intros Hc Hin win reaches_place after.
  assert (P : forall x y w h st,
             FloatStates_eqb st MINIMIZED = false ->
             result (_enablefloating self (Some x) (Some y) (Some w) (Some h) st c)
             = Raise ValueError
             /\ after (_enablefloating self (Some x) (Some y) (Some w) (Some h) st c)
                = Win._float_state win).
  { intros x y w h st Hst. unfold _enablefloating.
    assert (R : result (_reconfigure_floating self (Some x) (Some y) (Some w)
                          (Some h) st c) = Raise ValueError).
    { apply reconfigure_place_raises; [assumption|].
      now apply place_above_absent. }
    split; [exact R|].
    apply (reconfigure_outcome c self (Some x) (Some y) (Some w) (Some h) st).
    unfold returned. now rewrite R. }
  assert (Q : forall (k : Screen -> Z * Z * Z * Z) st,
             FloatStates_eqb st MINIMIZED = false ->
             let o := bind (pick_screen self)
                        (fun sc => let '(x, y, w, h) := k sc in
                           _enablefloating self (Some x) (Some y) (Some w)
                                           (Some h) st) c in
             result o = match result (pick_screen self c) with
                        | Ok _ => Raise ValueError
                        | Raise e => Raise e
                        end
             /\ after o = Win._float_state win).
  { intros k st Hst o. subst o.
    destruct (pick_screen_pure c self) as [Hf Ht].
    destruct (result (pick_screen self c)) as [sc|e] eqn:R.
    - rewrite (bind_ok _ _ _ _ R). cbn [final result]. rewrite Hf.
      destruct (k sc) as [[[x y] w] h]. apply P. assumption.
    - rewrite (bind_raise _ _ _ _ R). cbn [final result]. rewrite Hf.
      now split. }
  split; [intros; now apply place_above_absent|].
  split; [intros; now apply place_above_absent_margin|].
  assert (F : result (floating_set self true c)
              = (if reaches_place then Raise ValueError else Ok tt)
              /\ after (floating_set self true c)
                 = (if FloatStates_eqb (Win._float_state win) NOT_FLOATING
                       && negb (has_screen win)
                    then FLOATING else Win._float_state win)).
  { subst reaches_place after. unfold floating_set, self_, has_screen.
    rewrite bind_gets. fold win. cbn [andb].
    destruct (FloatStates_eqb (Win._float_state win) NOT_FLOATING) eqn:E.
    - destruct (Win._group win) as [g|];
        [|split; [reflexivity | cbn; now rewrite upd_same]].
      destruct (screen g) as [sc|];
        [|split; [reflexivity | cbn; now rewrite upd_same]].
      cbn [andb negb]. now apply P.
    - cbn [andb negb]. split; reflexivity. }
  destruct F as [F1 F2].
  destruct (Q (fun sc => (screen_x sc, screen_y sc, screen_width sc,
                          screen_height sc)) FULLSCREEN eq_refl) as [Q1 Q2].
  destruct (Q (fun sc => (dx sc, dy sc, dwidth sc, dheight sc)) MAXIMIZED eq_refl)
    as [Q3 Q4].
  repeat split; assumption.
Qed.

Lemma place_above_faults_when_unstacked_witness :
  Win.class (windows grouped_core O) = ClassWindow
  /\ py_in O (mapped_windows grouped_core) = false
  /\ result (floating_set O true grouped_core) = Raise ValueError
  /\ result (fullscreen_set O true grouped_core) = Raise ValueError.
Proof.
  split; [reflexivity|]. split; [reflexivity|].
  refine (let H := place_above_faults_when_unstacked grouped_core O
                     eq_refl eq_refl in _).
  destruct H as (_ & _ & F & H & _). split; [exact F | exact H].
Defined.

(** The claim C10 fails for [floating = True]: on a window that is not
    mapped the call returns, without placing, both when the window has no
    group yet (its state becomes FLOATING) and when it is floating already
    (nothing happens). *)
Lemma floating_on_unmapped_returns :
  Win.class (windows empty_core O) = ClassWindow
  /\ Win._mapped (windows empty_core O) = false
  /\ py_in O (mapped_windows empty_core) = false
  /\ floating_set O true empty_core
     = mkOutcome
         (with_windows
            (upd (windows empty_core) O
                 (Win.set_float_state FLOATING (windows empty_core O)))
            empty_core)
         [] (Ok tt)
  /\ ~ faults_when_unmapped set_floating O empty_core
  /\ Win.class (windows floating_core O) = ClassWindow
  /\ Win._mapped (windows floating_core O) = false
  /\ py_in O (mapped_windows floating_core) = false
  /\ has_screen (windows floating_core O) = true
  /\ floating_set O true floating_core = mkOutcome floating_core [] (Ok tt)
  /\ ~ faults_when_unmapped set_floating O floating_core.
Proof.
  split; [reflexivity|]. split; [reflexivity|]. split; [reflexivity|].
  split; [vm_compute; reflexivity|].
  split.
  { intros H. specialize (H eq_refl eq_refl eq_refl).
    vm_compute in H. discriminate. }
  split; [reflexivity|]. split; [reflexivity|]. split; [reflexivity|].
  split; [reflexivity|].
  split; [vm_compute; reflexivity|].
  intros H. specialize (H eq_refl eq_refl eq_refl).
  vm_compute in H. discriminate.
Qed.

(** ** The mapped flag and the stacking lists *)

Lemma Tracker_eqb_eq a b : Tracker_eqb a b = true <-> a = b.
Proof.
  destruct a as [|o l], b as [|o' l']; simpl; split; try congruence.
  - intros H. apply andb_true_iff in H. destruct H as [H1 H2].
    apply Nat.eqb_eq in H1. apply Layer_eqb_eq in H2. congruence.
  - intros H. injection H as -> ->. rewrite Nat.eqb_refl. simpl.
    now apply Layer_eqb_eq.
Qed.

Lemma tracker_get_set t t' v c :
  tracker_get t' (tracker_set t v c)
  = if Tracker_eqb t' t then v else tracker_get t' c.
Proof. destruct t, t'; reflexivity. Qed.

Lemma same_stack_refl c : same_stack c c.
Proof. now split. Qed.

Lemma same_stack_trans a b c : same_stack a b -> same_stack b c -> same_stack a c.
Proof.
  intros [H1 H2] [H3 H4]. split; [congruence|].
  intros t. now rewrite H4, H2.
Qed.

Lemma total_ret {A} (a : A) : total (ret a).
Proof. now intros c. Qed.

Lemma total_emit e : total (emit e).
Proof. now intros c. Qed.

Lemma total_gets {A} (f : Core -> A) : total (gets f).
Proof. now intros c. Qed.

Lemma total_modify f : total (modify f).
Proof. now intros c. Qed.

Lemma total_bind {A B} (m : M A) (k : A -> M B) :
  total m -> (forall a, total (k a)) -> total (bind m k).
Proof.
  intros Hm Hk c. specialize (Hm c). unfold returned, bind in *. cbv zeta.
  destruct (result (m c)) as [a|e]; [|discriminate].
  cbn [result]. apply Hk.
Qed.

Lemma total_damage self : total (damage self).
Proof. intros c. unfold returned. now rewrite damage_result. Qed.

Lemma returned_unit (o : Outcome unit) : returned o = true -> result o = Ok tt.
Proof. unfold returned. destruct (result o) as [[]|]; congruence. Qed.

Ltac step_total :=
  first
    [ apply total_damage
    | apply total_bind; [| intros ?]
    | apply total_ret | apply total_emit | apply total_gets
    | apply total_modify
    | match goal with
      | |- total (match ?x with _ => _ end) => destruct x
      end ].

Ltac step_same :=
  first
    [ match goal with
      | |- frame _ (damage _) =>
          intros ?; rewrite damage_final; apply same_stack_refl
      end
    | apply frame_bind; [apply same_stack_trans | | intros ?]
    | apply frame_ret; apply same_stack_refl
    | apply frame_emit; apply same_stack_refl
    | apply frame_gets; apply same_stack_refl
    | match goal with
      | |- frame _ (modify _) => intros ?; split; [reflexivity | now intros []]
      | |- frame _ (match ?x with _ => _ end) => destruct x
      end ].

(** Appending to or removing from the tracking list, as both [mapped]
    setters do it. *)
Lemma track_spec (b : bool) (self : wid) (t : Tracker) (c : Core) :
  let o := (if b then
              if negb (py_in self (tracker_get t c)) then list_append t self
              else ret tt
            else
              if py_in self (tracker_get t c) then list_remove t self
              else ret tt) c in
  result o = Ok tt
  /\ windows (final o) = windows c
  /\ (forall t', tracker_get t' (final o)
                 = if Tracker_eqb t' t
                   then stack_update b self (tracker_get t c)
                   else tracker_get t' c).
Proof.
  intros o. subst o. unfold list_append, list_remove, stack_update.
  assert (Same : forall t', tracker_get t' c
                 = if Tracker_eqb t' t then tracker_get t c else tracker_get t' c).
  { intros t'. destruct (Tracker_eqb t' t) eqn:T; [|reflexivity].
    apply Tracker_eqb_eq in T. now subst. }
  destruct b.
  - destruct (py_in self (tracker_get t c)) eqn:E; cbn [negb].
    + repeat split. exact Same.
    + cbn [modify final result]. rewrite windows_tracker_set. repeat split.
      intros t'. apply tracker_get_set.
  - destruct (py_in self (tracker_get t c)) eqn:E.
    + rewrite bind_gets.
      destruct (py_remove_present _ _ E) as [l' R]. rewrite R.
      cbn [modify final result]. rewrite windows_tracker_set. repeat split.
      intros t'. apply tracker_get_set.
    + rewrite (py_remove_absent _ _ E). repeat split. exact Same.
Qed.

(** The state after [self.mapped = mapped]. *)
Lemma mapped_set_spec c self b :
  let o := mapped_set self b c in
  let t := tracker_of c self in
  result o = Ok tt
  /\ windows (final o) = upd (windows c) self (Win.set_mapped b (windows c self))
  /\ (forall t', tracker_get t' (final o)
                 = if Tracker_eqb t' t
                   then stack_update b self (tracker_get t c)
                   else tracker_get t' c).
Proof.
  intros o t. subst o t.
  set (c1 := with_windows
               (upd (windows c) self (Win.set_mapped b (windows c self))) c).
  assert (W : windows c1 = upd (windows c) self (Win.set_mapped b (windows c self)))
    by reflexivity.
  assert (T : forall t, tracker_get t c1 = tracker_get t c) by now intros [].
  unfold mapped_set, tracker_of, Window_mapped_set, Static_mapped_set, self_.
  rewrite bind_gets.
  destruct (Win.class (windows c self)).
  - rewrite bind_setattr, bind_gets. fold c1.
    pose proof (track_spec b self CoreMapped c1) as S.
    cbn [tracker_get] in S. destruct S as (Hr & Hw & Ht).
    split; [exact Hr|]. split; [now rewrite Hw|].
    intros t'. rewrite Ht, !T. reflexivity.
  - rewrite bind_setattr, bind_gets. fold c1. cbv beta.
    replace (Win.is_layer (windows c1 self)) with (Win.is_layer (windows c self))
      by (rewrite W, upd_same; reflexivity).
    replace (Win.output (windows c1 self)) with (Win.output (windows c self))
      by (rewrite W, upd_same; reflexivity).
    replace (Win.layer (windows c1 self)) with (Win.layer (windows c self))
      by (rewrite W, upd_same; reflexivity).
    set (t := if Win.is_layer (windows c self)
              then OutputLayer (Win.output (windows c self))
                               (Win.layer (windows c self))
              else CoreMapped).
    rewrite bind_gets.
    destruct (track_spec b self t c1) as (Hr & Hw & Ht).
    rewrite (bind_ok _ _ _ _ Hr).
    assert (E : forall m : M unit,
               (m = emit (organise_layers (Win.output (windows c self)))
                \/ m = ret tt) ->
               forall c', result (m c') = Ok tt /\ final (m c') = c').
    { intros m [-> | ->] c'; now split. }
    destruct (E (if Win.is_layer (windows c self)
                 then emit (organise_layers (Win.output (windows c self)))
                 else ret tt)) with (c' := final
                   ((if b then
                       if negb (py_in self (tracker_get t c1))
                       then list_append t self else ret tt
                     else
                       if py_in self (tracker_get t c1)
                       then list_remove t self else ret tt) c1))
      as [Er Ef].
    { destruct (Win.is_layer (windows c self)); auto. }
    cbn [final result]. rewrite Er, Ef.
    split; [reflexivity|]. split; [now rewrite Hw|].
    intros t'. rewrite Ht, !T. reflexivity.
Qed.

(** After the write to [mapped], a handler changes neither a window nor a
    stacking list. *)
Lemma after_mapped_set c self b (k : unit -> M unit) :
  total (k tt) -> frame same_stack (k tt) ->
  let o := (mapped_set self b ;; k tt) c in
  result o = Ok tt /\ same_stack (final (mapped_set self b c)) (final o).
Proof.
  intros Ht Hf o. subst o.
  destruct (mapped_set_spec c self b) as (Hr & _).
  rewrite (bind_ok _ _ _ _ Hr). cbn [final result].
  split; [apply returned_unit, Ht | apply Hf].
Qed.

Lemma seat_keyboard_clear_focus_same : frame same_stack seat_keyboard_clear_focus.
Proof. unfold seat_keyboard_clear_focus. repeat step_same. Qed.

Lemma seat_keyboard_clear_focus_total : total seat_keyboard_clear_focus.
Proof. unfold seat_keyboard_clear_focus. repeat step_total. Qed.

(** The handlers of the map and unmap signals: a write to [mapped], and
    nothing else that touches a window or a stacking list. *)
Lemma on_map_spec c self :
  result (_on_map self c) = Ok tt
  /\ same_stack (final (mapped_set self true c)) (final (_on_map self c)).
Proof.
  unfold _on_map, self_. rewrite bind_gets.
  destruct (Win.class (windows c self)).
  - unfold Window__on_map. apply (after_mapped_set c self true (fun _ => _)).
    + repeat step_total.
    + repeat step_same.
  - unfold Static__on_map, self_.
    apply (after_mapped_set c self true (fun _ => _)).
    + repeat step_total.
    + repeat step_same.
Qed.

Lemma on_unmap_spec c self :
  result (_on_unmap self c) = Ok tt
  /\ same_stack (final (mapped_set self false c)) (final (_on_unmap self c)).
Proof.
  unfold _on_unmap, self_. rewrite bind_gets.
  destruct (Win.class (windows c self)).
  - unfold Window__on_unmap.
    apply (after_mapped_set c self false (fun _ => _)).
    + repeat first [apply seat_keyboard_clear_focus_total | step_total].
    + repeat first [apply seat_keyboard_clear_focus_same | step_same].
  - unfold Static__on_unmap, self_.
    apply (after_mapped_set c self false (fun _ => _)).
    + repeat first [apply seat_keyboard_clear_focus_total | step_total].
    + repeat first [apply seat_keyboard_clear_focus_same | step_same].
Qed.

(** Every signal is handled to the end, and leaves the state a write of the
    mapped flag leaves. *)
Lemma deliver_spec (s : Signal) (c : Core) :
  exists self b,
    result (deliver s c) = Ok tt
    /\ windows (final (deliver s c))
       = upd (windows c) self (Win.set_mapped b (windows c self))
    /\ (forall t', tracker_get t' (final (deliver s c))
                   = if Tracker_eqb t' (tracker_of c self)
                     then stack_update b self (tracker_get (tracker_of c self) c)
                     else tracker_get t' c).
Proof.
  destruct s as [w|w|w b]; cbn [deliver].
  - exists w, true.
    destruct (on_map_spec c w) as (Hr & Hw & Ht).
    destruct (mapped_set_spec c w true) as (_ & Hw' & Ht').
    split; [exact Hr|]. split; [congruence|].
    intros t'. now rewrite Ht, Ht'.
  - exists w, false.
    destruct (on_unmap_spec c w) as (Hr & Hw & Ht).
    destruct (mapped_set_spec c w false) as (_ & Hw' & Ht').
    split; [exact Hr|]. split; [congruence|].
    intros t'. now rewrite Ht, Ht'.
  - exists w, b. apply mapped_set_spec.
Qed.

(** *** Counting occurrences *)

Lemma py_in_occurrences w l : py_in w l = true <-> (0 < occurrences w l)%nat.
Proof.
  unfold py_in, occurrences. rewrite existsb_exists.
  split.
  - intros [x [Hx E]]. apply Nat.eqb_eq in E. subst.
    now apply (count_occ_In Nat.eq_dec).
  - intros H. exists w. split; [|apply Nat.eqb_refl].
    now apply (count_occ_In Nat.eq_dec).
Qed.

Lemma occurrences_app w l a :
  occurrences w (l ++ [a])
  = (occurrences w l + if Nat.eqb a w then 1 else 0)%nat.
Proof.
  unfold occurrences. rewrite count_occ_app. simpl.
  destruct (Nat.eq_dec a w) as [E|E].
  - apply Nat.eqb_eq in E. now rewrite E.
  - apply Nat.eqb_neq in E. now rewrite E.
Qed.

Lemma occurrences_py_remove a l l' w :
  py_remove a l = Some l' ->
  occurrences w l
  = (occurrences w l' + if Nat.eqb a w then 1 else 0)%nat.
Proof.
  unfold occurrences. revert l'.
  induction l as [|h t IH]; simpl; [discriminate|].
  intros l'. destruct (Nat.eqb h a) eqn:E.
  - apply Nat.eqb_eq in E. subst. intros H. injection H as ->.
    destruct (Nat.eq_dec a w) as [E|E].
    + apply Nat.eqb_eq in E. rewrite E. lia.
    + apply Nat.eqb_neq in E. rewrite E. lia.
  - destruct (py_remove a t) as [t'|]; [|discriminate].
    intros H. injection H as <-. simpl.
    specialize (IH t' eq_refl).
    destruct (Nat.eq_dec h w); lia.
Qed.

Lemma occurrences_stack_update_other b self l w :
  w <> self -> occurrences w (stack_update b self l) = occurrences w l.
Proof.
  intros H. apply Nat.eqb_neq in H. rewrite Nat.eqb_sym in H.
  unfold stack_update. destruct b.
  - destruct (py_in self l); [reflexivity|].
    rewrite occurrences_app, H. lia.
  - destruct (py_remove self l) as [l'|] eqn:R; [|reflexivity].
    rewrite (occurrences_py_remove _ _ _ w R), H. lia.
Qed.

Lemma occurrences_stack_update_self b self l :
  (occurrences self l <= 1)%nat ->
  occurrences self (stack_update b self l) = if b then 1%nat else O.
Proof.
  intros H. unfold stack_update. destruct b.
  - destruct (py_in self l) eqn:E.
    + apply py_in_occurrences in E. lia.
    + rewrite occurrences_app, Nat.eqb_refl.
      assert (~ (0 < occurrences self l)%nat).
      { intros P. apply py_in_occurrences in P. congruence. }
      lia.
  - destruct (py_remove self l) as [l'|] eqn:R.
    + pose proof (occurrences_py_remove _ _ _ self R) as P.
      rewrite Nat.eqb_refl in P. lia.
    + destruct (py_in self l) eqn:E.
      * destruct (py_remove_present _ _ E) as [l' R']. congruence.
      * assert (~ (0 < occurrences self l)%nat).
        { intros P. apply py_in_occurrences in P. congruence. }
        lia.
Qed.

(** *** The invariant *)

Lemma well_tracked_iff c :
  well_tracked c <-> stacking_consistent c /\ duplicate_free c.
Proof.
  unfold well_tracked, stacking_consistent, duplicate_free. split.
  - intros H. split; intros w; specialize (H w);
      destruct (Win._mapped (windows c w)); rewrite H;
      try split; try congruence; try lia.
  - intros [H1 H2] w. specialize (H1 w). specialize (H2 w).
    destruct (Win._mapped (windows c w)).
    + now apply H1.
    + destruct (occurrences w (stacking_list c w)) as [|[|n]];
        [reflexivity | | lia].
      destruct H1 as [_ H1]. specialize (H1 eq_refl). discriminate.
Qed.

Lemma deliver_well_tracked s c : well_tracked c -> well_tracked (final (deliver s c)).
Proof.
  intros H. destruct (deliver_spec s c) as (self & b & _ & Hw & Ht).
  intros w. unfold stacking_list.
  assert (T : tracker_of (final (deliver s c)) w = tracker_of c w).
  { unfold tracker_of. rewrite Hw. unfold upd.
    destruct (Nat.eqb w self) eqn:E; [|reflexivity].
    apply Nat.eqb_eq in E. now subst. }
  rewrite T, Ht, Hw.
  destruct (Nat.eq_dec w self) as [->|N].
  - rewrite upd_same. cbn [Win._mapped Win.set_mapped].
    assert (E : Tracker_eqb (tracker_of c self) (tracker_of c self) = true)
      by now apply Tracker_eqb_eq.
    rewrite E. apply occurrences_stack_update_self.
    specialize (H self). unfold stacking_list in H. rewrite H.
    destruct (Win._mapped (windows c self)); lia.
  - rewrite upd_other by assumption. specialize (H w).
    unfold stacking_list in H.
    destruct (Tracker_eqb (tracker_of c w) (tracker_of c self)) eqn:E;
      [|exact H].
    apply Tracker_eqb_eq in E. rewrite <- E.
    now rewrite occurrences_stack_update_other.
Qed.

Lemma run_well_tracked sigs c : well_tracked c -> well_tracked (run sigs c).
Proof.
  revert c. induction sigs as [|s sigs IH]; intros c H; [exact H|].
  cbn [run]. apply IH. now apply deliver_well_tracked.
Qed.

(** C1: from any state in which the mapped flag of every window tells
    whether the window is exactly once in its stacking list
    ([core.mapped_windows], or the layer list of its output for a layer
    surface) and no window is twice in its list, every sequence of map
    signals, unmap signals and writes to [mapped] leads to a state in
    which this is so again; every handler in the sequence runs to its
    end. *)
Theorem mapped_iff_once_in_stacking_list (c : Core) (sigs : list Signal) :
  stacking_consistent c -> duplicate_free c ->
  stacking_consistent (run sigs c)
  /\ duplicate_free (run sigs c)
  /\ forall s, result (deliver s (run sigs c)) = Ok tt.
Proof.
  intros H1 H2.
  assert (W : well_tracked (run sigs c)).
  { apply run_well_tracked. apply well_tracked_iff. now split. }
  apply well_tracked_iff in W. destruct W as [W1 W2].
  split; [exact W1|]. split; [exact W2|].
  intros s. destruct (deliver_spec s (run sigs c)) as (? & ? & R & _). exact R.
Qed.

(** New windows, none mapped, no list populated. *)
Lemma empty_core_well_tracked : well_tracked empty_core.
Proof. intros w. reflexivity. Qed.

Lemma mapped_iff_once_in_stacking_list_witness :
  stacking_consistent empty_core
  /\ duplicate_free empty_core
  /\ stacking_consistent
       (run [map_event 1%nat; write_mapped 2%nat true; map_event 1%nat; unmap_event 2%nat]
            empty_core).
Proof.
  assert (H1 : stacking_consistent empty_core).
  { intros w. cbn. split; discriminate. }
  assert (H2 : duplicate_free empty_core).
  { intros w. cbn. lia. }
  split; [exact H1|]. split; [exact H2|].
  apply (mapped_iff_once_in_stacking_list empty_core
           [map_event 1%nat; write_mapped 2%nat true; map_event 1%nat; unmap_event 2%nat]
           H1 H2).
Defined.

Example stacking_after_signals :
  let c := run [map_event 1%nat; map_event 3%nat; write_mapped 2%nat true;
                map_event 1%nat; unmap_event 2%nat; map_event 4%nat;
                unmap_event 1%nat; map_event 1%nat] layer_core in
  mapped_windows c = [4%nat; 1%nat]
  /\ layers c O TOP = [3%nat]
  /\ layers c O BOTTOM = []
  /\ Win._mapped (windows c 2%nat) = false
  /\ Win._mapped (windows c 3%nat) = true.
Proof. repeat split. Qed.

(** ** Minimizing *)

Lemma hide_spec c self :
  result (hide self c) = Ok tt
  /\ Win._mapped (windows (final (hide self c)) self) = false.
Proof.
  unfold hide, self_. rewrite bind_gets.
  destruct (Win._mapped (windows c self)) eqn:E.
  - destruct (on_unmap_spec c self) as (Hr & Hw & _).
    destruct (mapped_set_spec c self false) as (_ & Hw' & _).
    split; [exact Hr|]. rewrite Hw, Hw', upd_same. reflexivity.
  - split; [reflexivity | exact E].
Qed.

Lemma reconfigure_tail_final c self st :
  final
    ((win <- self_ self ;;
      if negb (FloatStates_eqb (Win._float_state win) st) then
        setattr self (Win.set_float_state st) ;;
        match Win._group win with
        | Some g => emit (mark_floating (group_name g) self true)
        | None => ret tt
        end ;;
        emit (hook_fire "float_change")
      else ret tt) c)
  = if FloatStates_eqb (Win._float_state (windows c self)) st then c
    else with_windows
           (upd (windows c) self (Win.set_float_state st (windows c self))) c.
Proof.
  unfold self_. exec.
  destruct (FloatStates_eqb (Win._float_state (windows c self)) st);
    cbn [negb]; exec; [reflexivity|].
  destruct (Win._group (windows c self)); exec; reflexivity.
Qed.

Lemma well_tracked_set_float_state c self st :
  well_tracked c ->
  well_tracked
    (with_windows
       (upd (windows c) self (Win.set_float_state st (windows c self))) c).
Proof.
  intros H w. specialize (H w). unfold stacking_list, tracker_of in *.
  cbn [windows with_windows]. unfold upd.
  destruct (Nat.eqb w self) eqn:E.
  - apply Nat.eqb_eq in E. subst w.
    cbn [Win.class Win.is_layer Win.output Win.layer Win._mapped
         Win.set_float_state].
    destruct (Win.class (windows c self)); [|destruct (Win.is_layer _)];
      exact H.
  - destruct (Win.class (windows c w)); [|destruct (Win.is_layer _)];
      exact H.
Qed.

Lemma hide_well_tracked c self :
  well_tracked c -> well_tracked (final (hide self c)).
Proof.
  intros H. unfold hide, self_. rewrite bind_gets.
  destruct (Win._mapped (windows c self)).
  - exact (deliver_well_tracked (unmap_event self) c H).
  - exact H.
Qed.

Lemma hide_others c self w :
  w <> self -> windows (final (hide self c)) w = windows c w.
Proof.
  intros N. unfold hide, self_. rewrite bind_gets.
  destruct (Win._mapped (windows c self)); [|reflexivity].
  destruct (on_unmap_spec c self) as (_ & Hw & _).
  destruct (mapped_set_spec c self false) as (_ & Hw' & _).
  rewrite Hw, Hw'. now rewrite upd_other.
Qed.

(** C9: from a state in which the mapped flag of every window tells
    whether the window is once in its stacking list and no window is twice
    in its list, [minimized = True] on a window that is not MINIMIZED runs
    to its end and hides the window: its mapped flag is cleared and it is
    no longer in its stacking list, while every other window is left as it
    was, as often in its list as before, and the lists stay consistent
    with the flags.  The window ends in state MINIMIZED, no surface is
    asked for a size or a position, and [float_x], [float_y],
    [float_width], [float_height], [x] and [y] of the window are as they
    were. *)
Theorem minimize_hides_and_keeps_geometry (c : Core) (self : wid) :
  Win._float_state (windows c self) <> MINIMIZED ->
  stacking_consistent c -> duplicate_free c ->
  let o := minimized_set self true c in
  let win := windows c self in
  let win' := windows (final o) self in
  result o = Ok tt
  /\ Win._mapped win' = false
  /\ occurrences self (stacking_list (final o) self) = O
  /\ (forall w, w <> self ->
        windows (final o) w = windows c w
        /\ occurrences w (stacking_list (final o) w)
           = occurrences w (stacking_list c w))
  /\ stacking_consistent (final o)
  /\ duplicate_free (final o)
  /\ Win._float_state win' = MINIMIZED
  /\ Forall not_resize (trace o)
  /\ Win.float_x win' = Win.float_x win
  /\ Win.float_y win' = Win.float_y win
  /\ Win.float_width win' = Win.float_width win
  /\ Win.float_height win' = Win.float_height win
  /\ Win.x win' = Win.x win
  /\ Win.y win' = Win.y win.
Proof.
  intros H S D o win win'. subst o win win'.
  assert (W : well_tracked c) by (apply well_tracked_iff; now split).
  unfold minimized_set, self_. rewrite bind_gets.
  assert (E : FloatStates_eqb (Win._float_state (windows c self)) MINIMIZED = false).
  { destruct (FloatStates_eqb _ MINIMIZED) eqn:E; [|reflexivity].
    apply FloatStates_eqb_eq in E. contradiction. }
  rewrite E. cbn [negb].
  unfold _enablefloating, _reconfigure_floating. cbn [FloatStates_eqb].
  destruct (hide_spec c self) as (Hr & Hm).
  rewrite (bind_ok _ _ _ _ Hr). cbn [final trace result].
  pose proof (hide_well_tracked c self W) as W1.
  pose proof (hide_others c self) as O1.
  set (c1 := final (hide self c)) in *.
  destruct (reconfigure_tail c1 self MINIMIZED) as (Tr & Ts & _ & Tn & Tw').
  set (c2 := final _).
  assert (Tf : c2 = if FloatStates_eqb (Win._float_state (windows c1 self))
                        MINIMIZED
                   then c1
                   else with_windows
                          (upd (windows c1) self
                               (Win.set_float_state MINIMIZED (windows c1 self)))
                          c1)
    by exact (reconfigure_tail_final c1 self MINIMIZED).
  assert (Tw : forall w, Win.set_float_state MINIMIZED (windows c2 w)
                         = Win.set_float_state MINIMIZED (windows c1 w))
    by exact Tw'.
  assert (W2 : well_tracked c2).
  { rewrite Tf.
    destruct (FloatStates_eqb (Win._float_state (windows c1 self)) MINIMIZED);
      [exact W1|].
    now apply well_tracked_set_float_state. }
  assert (O2 : forall w, w <> self -> windows c2 w = windows c w).
  { intros w N. rewrite <- (O1 w N). rewrite Tf.
    destruct (FloatStates_eqb (Win._float_state (windows c1 self)) MINIMIZED);
      [reflexivity|].
    cbn [windows with_windows]. now rewrite upd_other. }
  assert (M2 : Win._mapped (windows c2 self) = false).
  { change (Win._mapped (Win.set_float_state MINIMIZED (windows c2 self)) = false).
    rewrite Tw. exact Hm. }
  assert (K : forall {B} (f : Win.t -> B),
             (forall v win, f (Win.set_mapped v win) = f win) ->
             (forall v win, f (Win.set_float_state v win) = f win) ->
             f (windows c2 self) = f (windows c self)).
  { intros B f Hf1 Hf2.
    rewrite <- (Hf2 MINIMIZED), Tw, Hf2.
    apply (hide_keeps f self Hf1 c self). }
  split; [exact Tr|].
  split; [exact M2|].
  split; [rewrite (W2 self), M2; reflexivity|].
  split.
  { intros w N. split; [now apply O2|].
    rewrite (W2 w), (W w), (O2 w N). reflexivity. }
  apply well_tracked_iff in W2. destruct W2 as [S2 D2].
  split; [exact S2|]. split; [exact D2|].
  split; [exact Ts|].
  split; [apply Forall_app; split; [apply hide_not_resize | exact Tn]|].
  repeat split; now apply K.
Qed.

Lemma minimize_hides_and_keeps_geometry_witness :
  Win._float_state (windows managed_core O) <> MINIMIZED
  /\ stacking_consistent managed_core
  /\ duplicate_free managed_core
  /\ Win._mapped (windows managed_core O) = true
  /\ occurrences O (stacking_list managed_core O) = 1%nat
  /\ Win._mapped (windows (final (minimized_set O true managed_core)) O) = false
  /\ occurrences O (stacking_list (final (minimized_set O true managed_core)) O)
     = O
  /\ Win._float_state (windows (final (minimized_set O true managed_core)) O)
     = MINIMIZED.
Proof.
  assert (H : Win._float_state (windows managed_core O) <> MINIMIZED)
    by (simpl; discriminate).
  assert (W : well_tracked managed_core).
  { intros w. destruct w as [|w]; reflexivity. }
  apply well_tracked_iff in W. destruct W as [S D].
  split; [exact H|]. split; [exact S|]. split; [exact D|].
  split; [reflexivity|]. split; [reflexivity|].
  pose proof (minimize_hides_and_keeps_geometry managed_core O H S D) as T.
  cbv zeta in T. destruct T as (_ & Hm & Hl & _ & _ & _ & Hs & _).
  split; [exact Hm|]. split; [exact Hl | exact Hs].
Defined.

(** ** Moving and resizing a floating window *)

Lemma trace_bind_total {A B} (m : M A) (k : A -> M B) (c : Core) :
  total m ->
  exists a, result (m c) = Ok a
            /\ trace (bind m k c) = trace (m c) ++ trace (k a (final (m c))).
Proof.
  intros H. specialize (H c). unfold returned in H.
  destruct (result (m c)) as [a|e] eqn:R; [|discriminate].
  exists a. split; [reflexivity|]. now rewrite (bind_ok _ _ _ _ R).
Qed.

(** Reconfiguring to a state that is not MINIMIZED asks the surface for the
    given size, once, whether or not restacking then raises. *)
Lemma reconfigure_requests c self x y w h st :
  FloatStates_eqb st MINIMIZED = false ->
  requested_sizes self
    (trace (_reconfigure_floating self (Some x) (Some y) (Some w) (Some h) st c))
  = [(w, h)].
Proof.
  intros Hst. unfold _reconfigure_floating, self_. rewrite Hst.
  rewrite bind_bind, bind_gets. cbv beta.
  set (p := place self x y w h (Win.borderwidth (windows c self))
                  (Some (Win.bordercolor (windows c self))) true None true).
  pose proof (place_requests c self x y w h (Win.borderwidth (windows c self))
                (Some (Win.bordercolor (windows c self))) true true) as P.
  fold p in P.
  destruct (result (p c)) as [[]|e] eqn:R.
  - rewrite (bind_ok _ _ _ _ R). cbn [trace].
    rewrite requested_sizes_app, P.
    destruct (reconfigure_tail (final (p c)) self st) as (_ & _ & _ & Tn & _).
    unfold self_ in Tn. rewrite (requested_sizes_not_resize _ _ Tn). reflexivity.
  - rewrite (bind_raise _ _ _ _ R). exact P.
Qed.

Lemma clamp_max z : (if z <? 0 then 0 else z) = Z.max 0 z.
Proof. destruct (z <? 0) eqn:L; [apply Z.ltb_lt in L | apply Z.ltb_ge in L]; lia. Qed.

(** C6: [_tweak_float] asks the surface of the window for exactly one
    size: the explicit or current width and height plus the deltas, each
    replaced by 0 when negative; [dw = -1000] on a 50 by 50 window asks for
    width 0. *)
Theorem tweak_float_clamps_size (c : Core) (self : wid)
    (x y : option Z) (dx dy : Z) (w h : option Z) (dw dh : Z) :
  let win := windows c self in
  let new_w := Z.max 0 (match w with None => Win.width win | Some w => w end + dw) in
  let new_h := Z.max 0 (match h with None => Win.height win | Some h => h end + dh) in
  requested_sizes self (trace (_tweak_float self x y dx dy w h dw dh c))
  = [(new_w, new_h)]
  /\ 0 <= new_w
  /\ 0 <= new_h
  /\ requested_sizes O (trace (cmd_resize_floating O (-1000) 0 empty_core))
     = [(0, 50)].
Proof.
  intros win new_w new_h.
  split; [|split; [lia | split; [lia | reflexivity]]].
  unfold _tweak_float, self_. rewrite bind_gets. fold win. cbv zeta.
  rewrite bind_gets. cbv beta.
  match goal with
  | |- context [bind ?m ?k c] =>
      destruct (trace_bind_total m k c) as (a & R & T);
        [| assert (N : Forall not_resize (trace (m c)))]
  end.
  - unfold group_transfer, setattr. repeat step_total.
  - unfold group_transfer, setattr.
    match goal with
    | |- Forall _ (trace (?m c)) => assert (E : emits not_resize m)
    end.
    { repeat step_emits. }
    apply E.
  - rewrite T, requested_sizes_app, (requested_sizes_not_resize _ _ N).
    cbn [app]. destruct a.
    rewrite reconfigure_requests by reflexivity.
    subst new_w new_h. now rewrite !clamp_max.
Qed.

(** ** The float_change notification *)








(** ** Popups *)

Lemma py_round_integer (z : Z) : py_round (inject_Z z) = z.
Proof.
  unfold py_round. rewrite Qfloor_Z.
  destruct (Qcompare (inject_Z z - inject_Z z) (1 # 2)) eqn:C.
  - apply Qeq_alt in C. lra.
  - reflexivity.
  - apply Qgt_alt in C. lra.
Qed.

Example py_round_halves :
  py_round (1 # 2) = 0 /\ py_round (3 # 2) = 2 /\ py_round (5 # 2) = 2
  /\ py_round (- (1 # 2)) = 0 /\ py_round (- (3 # 2)) = -2
  /\ py_round (7 # 4) = 2 /\ py_round (- (7 # 4)) = -2.
Proof. repeat split. Qed.

(** [round] is at most one half away from its argument. *)
Lemma py_round_close (q : Q) :
  (Qabs (inject_Z (py_round q) - q) <= 1 # 2)%Q.
Proof.
  unfold py_round.
  pose proof (Qfloor_le q) as Lo. pose proof (Qlt_floor q) as Hi.
  rewrite inject_Z_plus in Hi. change (inject_Z 1) with 1%Q in Hi.
  apply Qabs_Qle_condition.
  destruct (Qcompare (q - inject_Z (Qfloor q)) (1 # 2)) eqn:C.
  - apply Qeq_alt in C.
    destruct (Z.even (Qfloor q)); rewrite ?inject_Z_plus;
      change (inject_Z 1) with 1%Q; split; lra.
  - apply Qlt_alt in C. split; lra.
  - apply Qgt_alt in C. rewrite inject_Z_plus.
    change (inject_Z 1) with 1%Q. split; lra.
Qed.

(** [round] of a double that stands for a number is Python's rounding of
    that number. *)
Lemma round_value (f : double) (q : Q) :
  float_value f = Some q -> round f = Ok (py_round q).
Proof.
  unfold round. intros H. rewrite H.
  unfold float_value in H.
  destruct (FloatOps.Prim2SF f); try discriminate; reflexivity.
Qed.

Lemma round_fails (f : double) :
  float_value f = None -> exists e, round f = Raise e.
Proof.
  unfold round, float_value.
  destruct (FloatOps.Prim2SF f); try discriminate; intros _; eauto.
Qed.

(** A translated origin is the rounded value of the difference of doubles,
    and it is one exactly when that difference is a number whose rounding
    fits a C [int]. *)
Lemma translated_spec (origin : Z) (l : double) (r : Z) :
  translated origin l = Ok r
  <-> exists q, difference origin l = Some q /\ r = py_round q
                /\ fits_int r = true.
Proof.
  unfold translated, difference, int_field.
  destruct (double_of_int origin) as [o|].
  - destruct (float_value (PrimFloat.sub o l)) as [q|] eqn:V.
    + rewrite (round_value _ _ V). split.
      * destruct (fits_int (py_round q)) eqn:F; intros H; inversion H.
        subst. exists q. auto.
      * intros (q' & Hq & -> & F). inversion Hq. subst. now rewrite F.
    + destruct (round_fails _ V) as (e & ->). split; [discriminate|].
      intros (q' & Hq & _). discriminate.
  - split; [discriminate|]. intros (q' & Hq & _). discriminate.
Qed.

(** The difference is taken on doubles: the output at [x = 101] and the
    point [lx = 0.49999999999999994] give [100.5], which rounds to 100,
    though the exact difference rounds to 101. *)
Example translated_rounds_the_double :
  translated 101 below_half = Ok 100
  /\ difference 101 below_half = Some (201 # 2)%Q
  /\ float_value below_half = Some (9007199254740991 # 18014398509481984)%Q
  /\ py_round (inject_Z 101 - (9007199254740991 # 18014398509481984)) = 101.
Proof.
  split; [vm_compute; reflexivity|].
  split; [vm_compute; reflexivity|].
  split; vm_compute; reflexivity.
Qed.

(** A difference of small integers is exact. *)
Example translated_integers :
  (forall f, double_of_int 105 = Some f -> translated 100 f = Ok (-5))
  /\ (forall f, double_of_int (-3) = Some f -> translated 1920 f = Ok 1923).
Proof.
  split; intros f H; vm_compute in H; inversion H; vm_compute; reflexivity.
Qed.

(** What cannot be stored is an error: an origin that no double holds, a
    point at infinity or that is no number, a difference outside of C
    [int]. *)
Example translated_errors :
  translated (2 ^ 1024) below_half = Raise OverflowError
  /\ translated 0 PrimFloat.infinity = Raise OverflowError
  /\ translated 0 PrimFloat.nan = Raise ValueError
  /\ (forall f, double_of_int (- 2 ^ 31) = Some f ->
                translated 1 f = Raise OverflowError).
Proof.
  split; [vm_compute; reflexivity|].
  split; [vm_compute; reflexivity|].
  split; [vm_compute; reflexivity|].
  intros f H. vm_compute in H. inversion H. vm_compute. reflexivity.
Qed.

(** A first-level popup whose anchor lies on no output: [output_at] gives
    [None], and reading [.data] of it raises. *)
Lemma popup_without_output (c : Core) (w : wid) (xdg_popup : XdgPopup)
    (ax ay : double) :
  double_of_int (Win.x (windows c w) + box_x (base_geometry xdg_popup)) = Some ax ->
  double_of_int (Win.y (windows c w) + box_y (base_geometry xdg_popup)) = Some ay ->
  output_at (output_layout c)
            (fst (closest_point (output_layout c) ax ay))
            (snd (closest_point (output_layout c) ax ay)) = None ->
  XdgPopupWindow_init (inl w) xdg_popup c = mkOutcome c [] (Raise AttributeError).
Proof.
  intros Hx Hy H.
  unfold XdgPopupWindow_init, self_, as_double. rewrite !bind_gets.
  rewrite Hx, bind_ret, Hy, bind_ret. cbv zeta. rewrite H. reflexivity.
Qed.

(** C8: a popup whose parent is a popup gets its parent's output and
    constraint box as they are.  A popup whose parent is a window gets the
    output at the point [(lx, ly)] of the layout closest to its anchor (the
    window's position plus the popup's geometry offset) and, as constraint
    box, that output's geometry with its origin replaced by
    [round (output.x - lx)] and [round (output.y - ly)], the differences
    being those of doubles, and with the same width and height; this is so
    whenever there is an output at that point, the differences are numbers
    and their roundings fit the box's fields.  Either popup is then
    unconstrained from its box, and nothing else happens. *)
Theorem popup_constraint_box (c : Core) (w : wid) (p : XdgPopupWindow)
    (xdg_popup : XdgPopup) :
  XdgPopupWindow_init (inr p) xdg_popup c
  = mkOutcome c [unconstrain_from_box (popup_output_box p)]
      (Ok (PopupObject (inr p) xdg_popup (popup_output p)
                       (popup_output_box p) []))
  /\ forall (ax ay : double) (o : Output) (dx dy : Q),
       double_of_int (Win.x (windows c w) + box_x (base_geometry xdg_popup))
       = Some ax ->
       double_of_int (Win.y (windows c w) + box_y (base_geometry xdg_popup))
       = Some ay ->
       output_at (output_layout c)
                 (fst (closest_point (output_layout c) ax ay))
                 (snd (closest_point (output_layout c) ax ay)) = Some o ->
       difference (box_x (geometry o))
                  (fst (closest_point (output_layout c) ax ay)) = Some dx ->
       difference (box_y (geometry o))
                  (snd (closest_point (output_layout c) ax ay)) = Some dy ->
       fits_int (py_round dx) = true ->
       fits_int (py_round dy) = true ->
       XdgPopupWindow_init (inl w) xdg_popup c
       = mkOutcome c
           [unconstrain_from_box
              (Build_Box (py_round dx) (py_round dy)
                         (box_width (geometry o)) (box_height (geometry o)))]
           (Ok (PopupObject (inl w) xdg_popup o
                  (Build_Box (py_round dx) (py_round dy)
                             (box_width (geometry o)) (box_height (geometry o)))
                  [])).
Proof.
  split; [reflexivity|].
  intros ax ay o dx dy Hx Hy Ho Dx Dy Fx Fy.
  assert (Tx : translated (box_x (geometry o))
                 (fst (closest_point (output_layout c) ax ay))
               = Ok (py_round dx)).
  { apply translated_spec. exists dx. auto. }
  assert (Ty : translated (box_y (geometry o))
                 (snd (closest_point (output_layout c) ax ay))
               = Ok (py_round dy)).
  { apply translated_spec. exists dy. auto. }
  unfold XdgPopupWindow_init, self_, as_double. rewrite !bind_gets.
  rewrite Hx, bind_ret, Hy, bind_ret. cbv zeta. rewrite Ho.
  unfold lift at 1. unfold bind at 1. cbv zeta. rewrite Tx.
  cbn [result final trace].
  unfold lift at 1. unfold bind at 1. cbv zeta. rewrite Ty.
  cbn [result final trace]. rewrite bind_emit. reflexivity.
Qed.

Lemma popup_constraint_box_witness :
  double_of_int (100 + 5) = Some double_105
  /\ output_at (output_layout popup_core)
               double_105 double_105
     = Some popup_output_0
  /\ difference 100 double_105 = Some (inject_Z (-5))
  /\ difference 0 double_105 = Some (inject_Z (-105))
  /\ XdgPopupWindow_init (inl O) (Build_XdgPopup (Build_Box 5 5 20 30)) popup_core
     = mkOutcome popup_core
         [unconstrain_from_box (Build_Box (-5) (-105) 1920 1080)]
         (Ok (PopupObject (inl O) (Build_XdgPopup (Build_Box 5 5 20 30))
                popup_output_0 (Build_Box (-5) (-105) 1920 1080) [])).
Proof.
  assert (H1 : double_of_int (100 + 5) = Some double_105)
    by (vm_compute; reflexivity).
  assert (H2 : difference 100 double_105 = Some (inject_Z (-5)))
    by (vm_compute; reflexivity).
  assert (H3 : difference 0 double_105 = Some (inject_Z (-105)))
    by (vm_compute; reflexivity).
  split; [exact H1|]. split; [reflexivity|]. split; [exact H2|].
  split; [exact H3|].
  exact (proj2 (popup_constraint_box popup_core O
                  (PopupObject (inl O) (Build_XdgPopup (Build_Box 0 0 0 0))
                               popup_output_0 (Build_Box 0 0 0 0) [])
                  (Build_XdgPopup (Build_Box 5 5 20 30)))
               double_105 double_105
               popup_output_0 (inject_Z (-5)) (inject_Z (-105))
               H1 H1 eq_refl H2 H3 eq_refl eq_refl).
Defined.
